(** * qiskit.tools.monitor.job_monitor: a model of the text job monitor

    The module polls a job handle for its status, prints an evolving
    status line to a file-like object and returns once the job has
    reached DONE, CANCELLED or ERROR.  The job handle, the output file
    and [time.sleep] are collaborators outside the module: they are
    modelled as objects with a state, whose calls either return or
    raise, and every call the monitor makes is recorded in order. *)

From Stdlib Require Import ZArith List String Ascii Bool Arith Lia Sorted.
From Stdlib Require Import DecimalString.
Import ListNotations.

Local Open Scope string_scope.
Local Open Scope list_scope.

(** ** Python values *)

(** A member of the job-status enumeration as the monitor uses it:
    [status.name] and [status.value]. *)
Record Status : Type := { name : string; value : string }.

(** A Python exception object: its class and its message. *)
Record PyExn : Type := { exn_class : string; exn_message : string }.

Definition TypeError (m : string) : PyExn :=
  {| exn_class := "TypeError"; exn_message := m |}.
Definition ValueError (m : string) : PyExn :=
  {| exn_class := "ValueError"; exn_message := m |}.
Definition OverflowError (m : string) : PyExn :=
  {| exn_class := "OverflowError"; exn_message := m |}.

(** What a call into a collaborator does: it returns or it raises. *)
Inductive Res (A : Type) : Type :=
| Returns (a : A)
| Raises (e : PyExn).
Arguments Returns {A} a.
Arguments Raises {A} e.

(** ** The collaborators *)

(** The job handle.  [has_queue_position] is
    [hasattr(job, "queue_position")]; [queue_position] is only called
    when it holds.  Each call may change the handle's state. *)
Class Job (J : Type) : Type := {
  status : J -> Res Status * J;
  has_queue_position : J -> bool;
  queue_position : J -> Res (option Z) * J
}.

(** The file-like object given as [output]. *)
Class Output (O : Type) : Type := {
  write : string -> O -> Res unit * O
}.

(** ** Runs *)

(** The calls the monitor makes, with what each call gave back. *)
Inductive Event : Type :=
| EvStatus (r : Res Status)
| EvQueuePosition (r : Res (option Z))
| EvSleep (secs : Z)
| EvWrite (text : string) (r : Res unit).

(** How a piece of the monitor ends: normally, by an exception, or not
    within the number of loop iterations the model was given. *)
Inductive Outcome (A : Type) : Type :=
| Ok (a : A)
| Raised (e : PyExn)
| OutOfFuel.
Arguments Ok {A} a.
Arguments Raised {A} e.
Arguments OutOfFuel {A}.

Record World (J O : Type) : Type := { job : J; output : O }.
Arguments job {J O} w.
Arguments output {J O} w.

Record Run (W A : Type) : Type :=
  { outcome : Outcome A; final : W; events : list Event }.
Arguments outcome {W A} r.
Arguments final {W A} r.
Arguments events {W A} r.

Definition M (W A : Type) : Type := W -> Run W A.

Definition ret {W A} (a : A) : M W A :=
  fun w => {| outcome := Ok a; final := w; events := [] |}.

Definition raise {W A} (e : PyExn) : M W A :=
  fun w => {| outcome := Raised e; final := w; events := [] |}.

Definition out_of_fuel {W A} : M W A :=
  fun w => {| outcome := OutOfFuel; final := w; events := [] |}.

Definition bind {W A B} (m : M W A) (f : A -> M W B) : M W B :=
  fun w =>
    let r := m w in
    match outcome r with
    | Ok a =>
        let r' := f a (final r) in
        {| outcome := outcome r'; final := final r';
           events := events r ++ events r' |}
    | Raised e => {| outcome := Raised e; final := final r; events := events r |}
    | OutOfFuel => {| outcome := OutOfFuel; final := final r; events := events r |}
    end.

Declare Scope monitor_scope.
Delimit Scope monitor_scope with mon.
Notation "x <- m ;; k" := (bind m (fun x => k))
  (at level 61, m at next level, right associativity) : monitor_scope.
Notation "m ;; k" := (bind m (fun _ => k))
  (at level 61, right associativity) : monitor_scope.
Local Open Scope monitor_scope.

Definition of_res {A} (r : Res A) : Outcome A :=
  match r with
  | Returns a => Ok a
  | Raises e => Raised e
  end.

(** ** Python built-ins the monitor uses *)

(** [str(x)] for [x] an int or [None], as the [%s] conversion gives it. *)
Definition py_str (x : option Z) : string :=
  match x with
  | None => "None"
  | Some z => NilZero.string_of_int (Z.to_int z)
  end.

(** The longest sleep [time.sleep] takes, in whole seconds: the length
    is kept as a signed 64-bit count of nanoseconds. *)
Definition sleep_max : Z := 9223372036.

(** How [time.sleep(secs)] ends for an int [secs]: a negative length is
    a [ValueError], one beyond [sleep_max] an [OverflowError]. *)
Definition sleep_outcome (secs : Z) : Outcome unit :=
  if (secs <? 0)%Z then
    Raised (ValueError "sleep length must be non-negative")
  else if (sleep_max <? secs)%Z then
    Raised (OverflowError "timestamp too large to convert to C _PyTime_t")
  else Ok tt.
Arguments sleep_outcome : simpl never.

(** [" " * n] *)
Fixpoint spaces (n : nat) : string :=
  match n with
  | O => EmptyString
  | S n' => String " " (spaces n')
  end.

(** [x in ["DONE", "CANCELLED", "ERROR"]] *)
Definition in_terminal (x : string) : bool :=
  existsb (String.eqb x) ["DONE"; "CANCELLED"; "ERROR"].

(** Lines 59 to 62: the message and [msg_len] after the adjustment. *)
Definition adjust (msg : string) (msg_len : nat) : string * nat :=
  if (String.length msg <? msg_len)%nat then
    (msg ++ spaces (msg_len - String.length msg), msg_len)%string
  else if (msg_len <? String.length msg)%nat then
    (msg, String.length msg)
  else (msg, msg_len).

(** ["{}{}: {}".format(line_discipline, "Job Status", msg)] *)
Definition status_line (line_discipline msg : string) : string :=
  (line_discipline ++ "Job Status" ++ ": " ++ msg)%string.

Definition newline : string := String (ascii_of_nat 10) EmptyString.

(** The default [line_discipline], a carriage return. *)
Definition carriage_return : string := String (ascii_of_nat 13) EmptyString.

(** The local variables that live across loop iterations. *)
Record Locals : Type := {
  cur_status : Status;
  interval : Z;
  msg_len : nat;
  prev_msg : string
}.

Section Monitor.
Context {J F : Type} `{JobJ : Job J} `{OutF : Output F}.

(** [job.status()] *)
Definition job_status : M (World J F) Status :=
  fun w =>
    let (r, j') := status (job w) in
    {| outcome := of_res r;
       final := {| job := j'; output := output w |};
       events := [EvStatus r] |}.

(** [job.queue_position()] *)
Definition job_queue_position : M (World J F) (option Z) :=
  fun w =>
    let (r, j') := queue_position (job w) in
    {| outcome := of_res r;
       final := {| job := j'; output := output w |};
       events := [EvQueuePosition r] |}.

(** [hasattr(job, "queue_position")] *)
Definition job_hasattr_queue_position : M (World J F) bool :=
  fun w => ret (has_queue_position (job w)) w.

(** [time.sleep(secs)] *)
Definition time_sleep (secs : Z) : M (World J F) unit :=
  fun w =>
    {| outcome := sleep_outcome secs;
       final := w;
       events := [EvSleep secs] |}.

(** [print(text, end=end_, file=output)]: the text and its end reach
    the file as one piece. *)
Definition print (text end_ : string) : M (World J F) unit :=
  fun w =>
    let (r, o') := write (text ++ end_)%string (output w) in
    {| outcome := of_res r;
       final := {| job := job w; output := o' |};
       events := [EvWrite (text ++ end_)%string r] |}.

(** [max(a, b)] with [b] an int: comparing an int with [None] is a
    [TypeError]. *)
Definition py_max (a : option Z) (b : Z) : M (World J F) Z :=
  match a with
  | Some z => ret (Z.max z b)
  | None =>
      raise (TypeError
        "'>' not supported between instances of 'int' and 'NoneType'")
  end.

(** Lines 45 to 56: fetch the status, build the message and choose the
    next interval. *)
Definition poll (interval : Z) (_interval_set : bool)
  : M (World J F) (Status * string * Z) :=
  status <- job_status ;;
  let msg := value status in
  has <- (if String.eqb (name status) "QUEUED"
          then job_hasattr_queue_position else ret false) ;;
  if has then
    p <- job_queue_position ;;
    let msg := (msg ++ (" (" ++ py_str p ++ ")"))%string in
    p2 <- job_queue_position ;;
    match p2 with
    | None => ret (status, msg, 2%Z)
    | Some _ =>
        if negb _interval_set then
          p3 <- job_queue_position ;;
          i <- py_max p3 2 ;;
          ret (status, msg, i)
        else ret (status, msg, interval)
    end
  else
    if negb _interval_set then ret (status, msg, 2%Z)
    else ret (status, msg, interval).

(** Lines 44 to 66: one iteration of the [while] loop. *)
Definition loop_body (_interval_set quiet : bool) (line_discipline : string)
    (st : Locals) : M (World J F) Locals :=
  time_sleep (interval st) ;;
  r <- poll (interval st) _interval_set ;;
  let '(status, msg, interval) := r in
  let '(msg, msg_len) := adjust msg (msg_len st) in
  if negb (String.eqb msg (prev_msg st)) && negb quiet then
    print (status_line line_discipline msg) "" ;;
    ret {| cur_status := status; interval := interval;
           msg_len := msg_len; prev_msg := msg |}
  else
    ret {| cur_status := status; interval := interval;
           msg_len := msg_len; prev_msg := prev_msg st |}.

(** Line 43: the [while] loop, run for at most [fuel] iterations. *)
Fixpoint while_loop (fuel : nat) (_interval_set quiet : bool)
    (line_discipline : string) (st : Locals) : M (World J F) Locals :=
  if negb (in_terminal (name (cur_status st))) then
    match fuel with
    | 0%nat => out_of_fuel
    | S fuel' =>
        st' <- loop_body _interval_set quiet line_discipline st ;;
        while_loop fuel' _interval_set quiet line_discipline st'
    end
  else ret st.

(** Lines 36 to 68.  The job and the output file are the two parts of
    the world the run starts in; [fuel] bounds the number of loop
    iterations that are followed. *)
Definition _text_checker (fuel : nat) (interval : Z)
    (_interval_set quiet : bool) (line_discipline : string) : M (World J F) unit :=
  status <- job_status ;;
  let msg := value status in
  let prev_msg := msg in
  let msg_len := String.length msg in
  (if negb quiet then print (status_line line_discipline msg) ""
   else ret tt) ;;
  while_loop fuel _interval_set quiet line_discipline
    {| cur_status := status; interval := interval;
       msg_len := msg_len; prev_msg := prev_msg |} ;;
  if negb quiet then print "" newline else ret tt.

(** Lines 99 to 107: [interval=None] is the default of 5 seconds, left
    free to be adjusted; any other value counts as set by the user. *)
Definition job_monitor (fuel : nat) (interval : option Z) (quiet : bool)
    (line_discipline : string) : M (World J F) unit :=
  match interval with
  | None => _text_checker fuel 5 false quiet line_discipline
  | Some interval => _text_checker fuel interval true quiet line_discipline
  end.

End Monitor.

(** ** Concrete collaborators *)

(** A job that replays a script: each [status()] call consumes the next
    entry, a status together with the queue position the job has while
    it is in that status; [queue_position()] reports the position of the
    entry fetched last.  Past the end of the script [status()] raises. *)
Record Scripted : Type := {
  with_queue_position : bool;
  pending : list (Status * option Z);
  position : option Z
}.

Definition StopIteration : PyExn :=
  {| exn_class := "StopIteration"; exn_message := "" |}.

#[export] Instance Scripted_Job : Job Scripted := {
  status j :=
    match pending j with
    | [] => (Raises StopIteration, j)
    | (s, p) :: rest =>
        (Returns s, {| with_queue_position := with_queue_position j;
                       pending := rest; position := p |})
    end;
  has_queue_position := with_queue_position;
  queue_position j := (Returns (position j), j)
}.

Definition scripted (has : bool) (script : list (Status * option Z)) : Scripted :=
  {| with_queue_position := has; pending := script; position := None |}.

(** A job that answers from two independent lists, one per accessor, so
    that successive [queue_position()] calls may disagree or raise. *)
Record Replay : Type := {
  status_answers : list (Res Status);
  position_answers : list (Res (option Z))
}.

#[export] Instance Replay_Job : Job Replay := {
  status j :=
    match status_answers j with
    | [] => (Raises StopIteration, j)
    | r :: rest =>
        (r, {| status_answers := rest; position_answers := position_answers j |})
    end;
  has_queue_position := fun _ => true;
  queue_position j :=
    match position_answers j with
    | [] => (Raises StopIteration, j)
    | r :: rest =>
        (r, {| status_answers := status_answers j; position_answers := rest |})
    end
}.

(** An in-memory text file, as [io.StringIO]: every write is appended. *)
Record StringIO : Type := { getvalue : string }.

#[export] Instance StringIO_Output : Output StringIO := {
  write s f := (Returns tt, {| getvalue := (getvalue f ++ s)%string |})
}.

(** A file that has been closed: every write raises. *)
Inductive ClosedFile : Type := closed_file.

#[export] Instance ClosedFile_Output : Output ClosedFile := {
  write s f := (Raises (ValueError "I/O operation on closed file."), f)
}.

(** Sample statuses for the concrete runs: the names the monitor tests
    for, with the display strings of Qiskit's job-status enumeration. *)
Module JobStatus.
Definition INITIALIZING : Status :=
  {| name := "INITIALIZING"; value := "job is being initialized" |}.
Definition QUEUED : Status :=
  {| name := "QUEUED"; value := "job is queued" |}.
Definition VALIDATING : Status :=
  {| name := "VALIDATING"; value := "job is being validated" |}.
Definition CANCELLED : Status :=
  {| name := "CANCELLED"; value := "job has been cancelled" |}.
Definition DONE : Status :=
  {| name := "DONE"; value := "job has successfully run" |}.
Definition ERROR : Status :=
  {| name := "ERROR"; value := "job incurred error" |}.
End JobStatus.

(** ** Reading a run *)

Definition sleeps (evs : list Event) : list Z :=
  flat_map (fun ev => match ev with EvSleep s => [s] | _ => [] end) evs.

Definition writes (evs : list Event) : list string :=
  flat_map (fun ev => match ev with EvWrite t _ => [t] | _ => [] end) evs.

Definition is_write (ev : Event) : bool :=
  match ev with EvWrite _ _ => true | _ => false end.

(** The polling behaviour: every call except the writes. *)
Definition polling (evs : list Event) : list Event :=
  filter (fun ev => negb (is_write ev)) evs.

Definition queue_position_calls (evs : list Event) : nat :=
  List.length (filter (fun ev => match ev with EvQueuePosition _ => true | _ => false end) evs).

(** The exception a call raised, if it did. *)
Definition raised_by (ev : Event) : option PyExn :=
  match ev with
  | EvStatus (Raises e) => Some e
  | EvQueuePosition (Raises e) => Some e
  | EvWrite _ (Raises e) => Some e
  | _ => None
  end.

Definition start (J F : Type) (j : J) (f : F) : World J F :=
  {| job := j; output := f |}.
Arguments start {J F} j f.

(** ** Vocabulary of the properties *)

(** Nothing was written. *)
Definition silent (evs : list Event) : Prop := writes evs = [].

(** The exception a run ended with, if it did. *)
Definition raised_exn {A} (o : Outcome A) : option PyExn :=
  match o with
  | Raised e => Some e
  | _ => None
  end.

(** [propagated evs o]: a call that raised is the last call made, and
    its exception is the one the run ended with. *)
Fixpoint propagated (evs : list Event) (o : option PyExn) : Prop :=
  match evs with
  | [] => True
  | ev :: rest =>
      match raised_by ev with
      | Some e => rest = [] /\ o = Some e
      | None => propagated rest o
      end
  end.

(** No call raised. *)
Definition clean (evs : list Event) : Prop :=
  Forall (fun ev => raised_by ev = None) evs.

Definition faithful {W A} (r : Run W A) : Prop :=
  propagated (events r) (raised_exn (outcome r)).

(** An output file whose writes always return. *)
Definition accepts_writes (F : Type) `{Output F} : Prop :=
  forall (s : string) (f : F), fst (write s f) = Returns tt.

Definition same_outcome {A B} (R : A -> B -> Prop)
    (o1 : Outcome A) (o2 : Outcome B) : Prop :=
  match o1, o2 with
  | Ok a, Ok b => R a b
  | Raised e1, Raised e2 => e1 = e2
  | OutOfFuel, OutOfFuel => True
  | _, _ => False
  end.

(** Two runs that made the same calls to the job and to [time.sleep],
    left the job in the same state and ended alike. *)
Definition same_polling {J F A B} (R : A -> B -> Prop)
    (r1 : Run (World J F) A) (r2 : Run (World J F) B) : Prop :=
  polling (events r1) = polling (events r2) /\
  job (final r1) = job (final r2) /\
  same_outcome R (outcome r1) (outcome r2).

(** A write that raised. *)
Definition failed_write (ev : Event) : bool :=
  match ev with
  | EvWrite _ (Raises _) => true
  | _ => false
  end.

(** The talkative run [r2] either had a write raise, or polled as the
    quiet run [r1] did. *)
Definition agree {J F A B} (R : A -> B -> Prop)
    (r1 : Run (World J F) A) (r2 : Run (World J F) B) : Prop :=
  existsb failed_write (events r2) = true \/ same_polling R r1 r2.

(** The loop variables that steer the polling: all but [prev_msg]. *)
Definition same_steering (st1 st2 : Locals) : Prop :=
  cur_status st1 = cur_status st2 /\
  interval st1 = interval st2 /\
  msg_len st1 = msg_len st2.

(** Messages whose lengths start at [n] or above and never go down. *)
Fixpoint ascending (n : nat) (msgs : list string) : Prop :=
  match msgs with
  | [] => True
  | m :: rest => n <= String.length m /\ ascending (String.length m) rest
  end.

(** The line of [a] is not longer than the line of [b]. *)
Definition no_longer_printed (ld a b : string) : Prop :=
  String.length (status_line ld a) <= String.length (status_line ld b).

(** The world after a call that left the job in state [j]. *)
Definition at_job {J F : Type} (j : J) (w : World J F) : World J F :=
  {| job := j; output := output w |}.

(** The message line 49 builds from the first queue position. *)
Definition queued_msg (s : Status) (p : option Z) : string :=
  (value s ++ (" (" ++ py_str p ++ ")"))%string.



(** The job of the scenario: QUEUED at position 3, QUEUED at position 1,
    RUNNING, DONE.  The display strings of the three statuses are left
    open. *)
Definition scenario (queued running done : string) : Scripted :=
  scripted true
    [({| name := "QUEUED"; value := queued |}, Some 3%Z);
     ({| name := "QUEUED"; value := queued |}, Some 1%Z);
     ({| name := "RUNNING"; value := running |}, None);
     ({| name := "DONE"; value := done |}, None)].

(** The messages the scenario shows after the first one: the queued
    message with its position, then the running and the done message,
    each padded to the longest message before it. *)
Definition scenario_msg2 (queued : string) : string := (queued ++ " (1)")%string.
Definition scenario_msg3 (queued running : string) : string :=
  (running ++ spaces (String.length (scenario_msg2 queued) - String.length running))%string.
Definition scenario_msg4 (queued running done : string) : string :=
  (done ++ spaces (Nat.max (String.length (scenario_msg2 queued))
                           (String.length running)
                   - String.length done))%string.

(** The statuses of the scenario, by display string. *)
Definition st_queued (v : string) : Status := {| name := "QUEUED"; value := v |}.
Definition st_running (v : string) : Status := {| name := "RUNNING"; value := v |}.
Definition st_done (v : string) : Status := {| name := "DONE"; value := v |}.

(** A scripted job with [queue_position], part of the way through. *)
Definition sjob (pend : list (Status * option Z)) (pos : option Z) : Scripted :=
  {| with_queue_position := true; pending := pend; position := pos |}.

(** A job without [queue_position] that stays in one status for ever. *)
Record Constant : Type := { constant_status : Status }.

Definition AttributeError (m : string) : PyExn :=
  {| exn_class := "AttributeError"; exn_message := m |}.

#[export] Instance Constant_Job : Job Constant := {
  status j := (Returns (constant_status j), j);
  has_queue_position := fun _ => false;
  queue_position j :=
    (Raises (AttributeError "object has no attribute 'queue_position'"), j)
}.


(** The statuses that [job.status()] returned, in order. *)
Definition fetched (evs : list Event) : list Status :=
  flat_map (fun ev => match ev with EvStatus (Returns s) => [s] | _ => [] end) evs.

(** How many of the fetched statuses were QUEUED. *)
Definition queued_fetches (evs : list Event) : nat :=
  List.length (filter (fun s => String.eqb (name s) "QUEUED") (fetched evs)).

(** Each message differs from the one before it, starting after [prev]. *)
Fixpoint changing (prev : string) (msgs : list string) : Prop :=
  match msgs with
  | [] => True
  | m :: rest => m <> prev /\ changing m rest
  end.


Create HintDb monitor.

Ltac split_polling := split; [|split]; simpl; auto.

(** * Properties *)

(** ** When a sleep returns *)

Lemma sleep_outcome_cases (secs : Z) :
  ((0 <= secs <= sleep_max)%Z /\ sleep_outcome secs = Ok tt) \/
  (~ (0 <= secs <= sleep_max)%Z /\ exists e, sleep_outcome secs = Raised e).
Proof.
  unfold sleep_outcome.
  destruct (Z.ltb_spec secs 0); [right; split; [lia|eauto]|].
  destruct (Z.ltb_spec sleep_max secs); [right; split; [lia|eauto]|].
  left. split; [lia|reflexivity].
Qed.

Lemma sleep_outcome_returns (secs : Z) :
  (0 <= secs <= sleep_max)%Z -> sleep_outcome secs = Ok tt.
Proof.
  intros H. destruct (sleep_outcome_cases secs) as [[_ E]|[Hn _]];
    [exact E|contradiction].
Qed.

(** ** Laws of the run monad *)

Section MonadLaws.
Context {W A B : Type}.

Lemma bind_unfold (m : M W A) (f : A -> M W B) (w : W) :
  bind m f w =
  match outcome (m w) with
  | Ok a => {| outcome := outcome (f a (final (m w)));
               final := final (f a (final (m w)));
               events := events (m w) ++ events (f a (final (m w))) |}
  | Raised e => {| outcome := Raised e; final := final (m w);
                   events := events (m w) |}
  | OutOfFuel => {| outcome := OutOfFuel; final := final (m w);
                    events := events (m w) |}
  end.
Proof. reflexivity. Qed.

Lemma bind_ok (m : M W A) (f : A -> M W B) (w : W) (a : A) :
  outcome (m w) = Ok a ->
  bind m f w =
  {| outcome := outcome (f a (final (m w)));
     final := final (f a (final (m w)));
     events := events (m w) ++ events (f a (final (m w))) |}.
Proof. intros E. rewrite bind_unfold, E. reflexivity. Qed.

Lemma bind_raised (m : M W A) (f : A -> M W B) (w : W) (e : PyExn) :
  outcome (m w) = Raised e ->
  bind m f w =
  {| outcome := Raised e; final := final (m w); events := events (m w) |}.
Proof. intros E. rewrite bind_unfold, E. reflexivity. Qed.


Lemma run_eta (r : Run W A) :
  r = {| outcome := outcome r; final := final r; events := events r |}.
Proof. destruct r; reflexivity. Qed.

(** Sequencing two pieces whose runs are known. *)
Lemma bind_run (m : M W A) (f : A -> M W B) (w w1 : W) (a : A)
    (evs1 : list Event) (r2 : Run W B) :
  m w = {| outcome := Ok a; final := w1; events := evs1 |} ->
  f a w1 = r2 ->
  bind m f w =
  {| outcome := outcome r2; final := final r2;
     events := evs1 ++ events r2 |}.
Proof. intros E1 E2. unfold bind. rewrite E1. simpl. rewrite E2. reflexivity. Qed.

(** A property of event lists that holds of the empty list and is
    kept by concatenation holds of a sequence of two pieces when it
    holds of each. *)
Lemma bind_events (P : list Event -> Prop) (m : M W A) (f : A -> M W B) :
  P [] ->
  (forall l1 l2, P l1 -> P l2 -> P (l1 ++ l2)) ->
  (forall w, P (events (m w))) ->
  (forall a w, P (events (f a w))) ->
  forall w, P (events (bind m f w)).
Proof.
  intros Hnil Happ Hm Hf w. rewrite bind_unfold.
  destruct (outcome (m w)); simpl; auto.
Qed.
End MonadLaws.

(** ** Quiet runs write nothing *)

Lemma silent_nil : silent [].
Proof. reflexivity. Qed.

Lemma silent_app l1 l2 : silent l1 -> silent l2 -> silent (l1 ++ l2).
Proof.
  unfold silent, writes. intros H1 H2.
  rewrite flat_map_app, H1, H2. reflexivity.
Qed.

#[local] Hint Resolve silent_nil silent_app : monitor.

Section Quiet.
Context {J F : Type} `{JobJ : Job J} `{OutF : Output F}.

Lemma silent_bind {A B} (m : M (World J F) A) (f : A -> M (World J F) B) :
  (forall w, silent (events (m w))) ->
  (forall a w, silent (events (f a w))) ->
  forall w, silent (events (bind m f w)).
Proof. apply bind_events; auto with monitor. Qed.

Lemma silent_ret {A} (a : A) (w : World J F) : silent (events (ret a w)).
Proof. reflexivity. Qed.

Lemma silent_job_status (w : World J F) : silent (events (job_status w)).
Proof. unfold job_status. destruct (status (job w)). reflexivity. Qed.

Lemma silent_job_queue_position (w : World J F) :
  silent (events (job_queue_position w)).
Proof.
  unfold job_queue_position. destruct (queue_position (job w)). reflexivity.
Qed.

Lemma silent_py_max a b (w : World J F) : silent (events (py_max a b w)).
Proof. destruct a; reflexivity. Qed.

Lemma silent_time_sleep secs (w : World J F) :
  silent (events (time_sleep secs w)).
Proof. reflexivity. Qed.

(** Fetching the status never writes, whatever the flags. *)
Lemma silent_poll i s (w : World J F) : silent (events (poll i s w)).
Proof.
  revert w. unfold poll.
  apply silent_bind; [apply silent_job_status|]. intros st.
  apply silent_bind.
  { intros w. destruct (name st =? "QUEUED")%string; reflexivity. }
  intros [|].
  - apply silent_bind; [apply silent_job_queue_position|]. intros p.
    apply silent_bind; [apply silent_job_queue_position|]. intros [z|] w.
    + destruct (negb s); [|reflexivity].
      revert w. apply silent_bind; [apply silent_job_queue_position|].
      intros p3. apply silent_bind; [apply silent_py_max|].
      intros; reflexivity.
    + reflexivity.
  - intros w. destruct (negb s); reflexivity.
Qed.

Lemma silent_loop_body s ld st (w : World J F) :
  silent (events (loop_body s true ld st w)).
Proof.
  revert w. unfold loop_body.
  apply silent_bind; [apply silent_time_sleep|]. intros _.
  apply silent_bind; [apply silent_poll|]. intros [[s' msg] i] w.
  destruct (adjust msg (msg_len st)) as [msg' len'].
  rewrite andb_false_r. reflexivity.
Qed.

Lemma silent_while_loop fuel s ld st (w : World J F) :
  silent (events (while_loop fuel s true ld st w)).
Proof.
  revert st w. induction fuel as [|fuel IH]; intros st w; simpl;
    destruct (negb (in_terminal (name (cur_status st)))); try reflexivity.
  revert w. apply silent_bind; [apply silent_loop_body|].
  intros st' w. apply IH.
Qed.

Lemma silent_text_checker fuel i s ld (w : World J F) :
  silent (events (_text_checker fuel i s true ld w)).
Proof.
  revert w. unfold _text_checker.
  apply silent_bind; [apply silent_job_status|]. intros st.
  apply silent_bind; [intros; reflexivity|]. intros _.
  apply silent_bind; [apply silent_while_loop|]. intros; reflexivity.
Qed.

(** The output file itself is left as it was. *)
Lemma keeps_output_bind {A B} (m : M (World J F) A) (f : A -> M (World J F) B) :
  (forall w, output (final (m w)) = output w) ->
  (forall a w, output (final (f a w)) = output w) ->
  forall w, output (final (bind m f w)) = output w.
Proof.
  intros Hm Hf w. rewrite bind_unfold.
  destruct (outcome (m w)); simpl; auto. rewrite Hf. apply Hm.
Qed.

Lemma keeps_output_job_status (w : World J F) :
  output (final (job_status w)) = output w.
Proof. unfold job_status. destruct (status (job w)). reflexivity. Qed.

Lemma keeps_output_job_queue_position (w : World J F) :
  output (final (job_queue_position w)) = output w.
Proof.
  unfold job_queue_position. destruct (queue_position (job w)). reflexivity.
Qed.

Lemma keeps_output_poll i s (w : World J F) :
  output (final (poll i s w)) = output w.
Proof.
  revert w. unfold poll.
  apply keeps_output_bind; [apply keeps_output_job_status|]. intros st.
  apply keeps_output_bind.
  { intros w. destruct (name st =? "QUEUED")%string; reflexivity. }
  intros [|].
  - apply keeps_output_bind; [apply keeps_output_job_queue_position|]. intros p.
    apply keeps_output_bind; [apply keeps_output_job_queue_position|].
    intros [z|] w.
    + destruct (negb s); [|reflexivity].
      revert w. apply keeps_output_bind; [apply keeps_output_job_queue_position|].
      intros p3. apply keeps_output_bind; [intros w; destruct p3; reflexivity|].
      intros; reflexivity.
    + reflexivity.
  - intros w. destruct (negb s); reflexivity.
Qed.

Lemma keeps_output_loop_body s ld st (w : World J F) :
  output (final (loop_body s true ld st w)) = output w.
Proof.
  revert w. unfold loop_body.
  apply keeps_output_bind; [reflexivity|]. intros _.
  apply keeps_output_bind; [apply keeps_output_poll|]. intros [[s' msg] i] w.
  destruct (adjust msg (msg_len st)) as [msg' len'].
  rewrite andb_false_r. reflexivity.
Qed.

Lemma keeps_output_while_loop fuel s ld st (w : World J F) :
  output (final (while_loop fuel s true ld st w)) = output w.
Proof.
  revert st w. induction fuel as [|fuel IH]; intros st w; simpl;
    destruct (negb (in_terminal (name (cur_status st)))); try reflexivity.
  revert w. apply keeps_output_bind; [apply keeps_output_loop_body|].
  intros st' w. apply IH.
Qed.

Lemma keeps_output_text_checker fuel i s ld (w : World J F) :
  output (final (_text_checker fuel i s true ld w)) = output w.
Proof.
  revert w. unfold _text_checker.
  apply keeps_output_bind; [apply keeps_output_job_status|]. intros st.
  apply keeps_output_bind; [intros; reflexivity|]. intros _.
  apply keeps_output_bind; [apply keeps_output_while_loop|]. intros; reflexivity.
Qed.

(** C7: with [quiet=True] nothing is written to the output file and the
    file is left as it was, whatever the job answers, whatever the
    interval and however long the session runs. *)
Theorem quiet_writes_nothing :
  forall (fuel : nat) (interval : option Z) (line_discipline : string)
         (w : World J F),
    writes (events (job_monitor fuel interval true line_discipline w)) = [] /\
    output (final (job_monitor fuel interval true line_discipline w)) = output w.
Proof.
  intros fuel [i|] ld w; (split; [apply silent_text_checker
                                 |apply keeps_output_text_checker]).
Qed.
End Quiet.

(** ** Errors of the collaborators reach the caller *)

Lemma propagated_clean_app evs1 evs2 o :
  clean evs1 -> propagated evs2 o -> propagated (evs1 ++ evs2) o.
Proof.
  induction 1 as [|ev evs1 Hev _ IH]; intros H2; simpl; auto.
  rewrite Hev. auto.
Qed.

Lemma propagated_none_clean evs : propagated evs None -> clean evs.
Proof.
  induction evs as [|ev evs IH]; simpl; intros H; [constructor|].
  destruct (raised_by ev) eqn:E.
  - destruct H as [_ H]. discriminate.
  - constructor; auto. apply IH, H.
Qed.

Lemma propagated_split evs o pre ev post e :
  propagated evs o -> evs = pre ++ ev :: post -> raised_by ev = Some e ->
  post = [] /\ o = Some e.
Proof.
  intros H -> He. induction pre as [|x pre IH]; simpl in H.
  - rewrite He in H. exact H.
  - destruct (raised_by x) eqn:Ex.
    + destruct H as [H _]. destruct pre; discriminate.
    + auto.
Qed.

Section Propagation.
Context {J F : Type} `{JobJ : Job J} `{OutF : Output F}.

Lemma faithful_bind {A B} (m : M (World J F) A) (f : A -> M (World J F) B) :
  (forall w, faithful (m w)) ->
  (forall a w, faithful (f a w)) ->
  forall w, faithful (bind m f w).
Proof.
  intros Hm Hf w. unfold faithful. rewrite bind_unfold.
  specialize (Hm w). unfold faithful in Hm.
  destruct (outcome (m w)) as [a| |] eqn:E; simpl in *; auto.
  apply propagated_clean_app; [now apply propagated_none_clean|apply Hf].
Qed.

Lemma faithful_ret {A} (a : A) (w : World J F) : faithful (ret a w).
Proof. exact I. Qed.

Lemma faithful_job_status (w : World J F) : faithful (job_status w).
Proof.
  unfold faithful, job_status.
  destruct (status (job w)) as [[s|e] j]; simpl; auto.
Qed.

Lemma faithful_job_queue_position (w : World J F) :
  faithful (job_queue_position w).
Proof.
  unfold faithful, job_queue_position.
  destruct (queue_position (job w)) as [[s|e] j]; simpl; auto.
Qed.

Lemma faithful_print t e (w : World J F) : faithful (print t e w).
Proof.
  unfold faithful, print.
  destruct (write (t ++ e)%string (output w)) as [[u|x] o]; simpl; auto.
Qed.

Lemma faithful_time_sleep secs (w : World J F) : faithful (time_sleep secs w).
Proof. exact I. Qed.

Lemma faithful_py_max a b (w : World J F) : faithful (py_max a b w).
Proof. destruct a; exact I. Qed.

Lemma faithful_poll i s (w : World J F) : faithful (poll i s w).
Proof.
  revert w. unfold poll.
  apply faithful_bind; [apply faithful_job_status|]. intros st.
  apply faithful_bind.
  { intros w. destruct (name st =? "QUEUED")%string; exact I. }
  intros [|].
  - apply faithful_bind; [apply faithful_job_queue_position|]. intros p.
    apply faithful_bind; [apply faithful_job_queue_position|]. intros [z|] w.
    + destruct (negb s); [|exact I].
      revert w. apply faithful_bind; [apply faithful_job_queue_position|].
      intros p3. apply faithful_bind; [apply faithful_py_max|].
      intros; exact I.
    + exact I.
  - intros w. destruct (negb s); exact I.
Qed.

Lemma faithful_loop_body s q ld st (w : World J F) :
  faithful (loop_body s q ld st w).
Proof.
  revert w. unfold loop_body.
  apply faithful_bind; [apply faithful_time_sleep|]. intros _.
  apply faithful_bind; [apply faithful_poll|]. intros [[s' msg] i] w.
  destruct (adjust msg (msg_len st)) as [msg' len'].
  destruct (negb (msg' =? prev_msg st)%string && negb q); [|exact I].
  revert w. apply faithful_bind; [apply faithful_print|]. intros; exact I.
Qed.

Lemma faithful_while_loop fuel s q ld st (w : World J F) :
  faithful (while_loop fuel s q ld st w).
Proof.
  revert st w. induction fuel as [|fuel IH]; intros st w; simpl;
    destruct (negb (in_terminal (name (cur_status st)))); try exact I.
  revert w. apply faithful_bind; [apply faithful_loop_body|].
  intros st' w. apply IH.
Qed.

Lemma faithful_text_checker fuel i s q ld (w : World J F) :
  faithful (_text_checker fuel i s q ld w).
Proof.
  revert w. unfold _text_checker.
  apply faithful_bind; [apply faithful_job_status|]. intros st.
  apply faithful_bind.
  { intros w. destruct (negb q); [apply faithful_print|exact I]. }
  intros _. apply faithful_bind; [apply faithful_while_loop|].
  intros _ w. destruct (negb q); [apply faithful_print|exact I].
Qed.

(** C8: when a call of [job.status()], of [job.queue_position()] or a
    write to the output file raises, [job_monitor] makes no further call
    (no retry, nothing after it) and ends by raising that very
    exception. *)
Theorem collaborator_errors_propagate :
  forall (fuel : nat) (interval : option Z) (quiet : bool)
         (line_discipline : string) (w : World J F)
         (pre post : list Event) (ev : Event) (e : PyExn),
    events (job_monitor fuel interval quiet line_discipline w)
      = pre ++ ev :: post ->
    raised_by ev = Some e ->
    post = [] /\
    outcome (job_monitor fuel interval quiet line_discipline w) = Raised e.
Proof.
  intros fuel interval quiet ld w pre post ev e Hev He.
  assert (Hf : faithful (job_monitor fuel interval quiet ld w)).
  { destruct interval; apply faithful_text_checker. }
  destruct (propagated_split _ _ _ _ _ _ Hf Hev He) as [Hpost Ho].
  split; [exact Hpost|].
  destruct (outcome (job_monitor fuel interval quiet ld w));
    simpl in Ho; congruence.
Qed.
End Propagation.

(** ** The quiet flag and the polling behaviour *)


Section QuietFlag.
Context {J F : Type} `{JobJ : Job J} `{OutF : Output F}.

Lemma polling_app l1 l2 : polling (l1 ++ l2) = polling l1 ++ polling l2.
Proof. apply filter_app. Qed.

Lemma same_polling_bind {A1 A2 B1 B2}
    (R : A1 -> A2 -> Prop) (R' : B1 -> B2 -> Prop)
    (m1 : M (World J F) A1) (m2 : M (World J F) A2)
    (f1 : A1 -> M (World J F) B1) (f2 : A2 -> M (World J F) B2) :
  (forall w1 w2, job w1 = job w2 -> same_polling R (m1 w1) (m2 w2)) ->
  (forall a1 a2, R a1 a2 ->
     forall w1 w2, job w1 = job w2 -> same_polling R' (f1 a1 w1) (f2 a2 w2)) ->
  forall w1 w2, job w1 = job w2 ->
    same_polling R' (bind m1 f1 w1) (bind m2 f2 w2).
Proof.
  intros Hm Hf w1 w2 Hw. rewrite !bind_unfold.
  destruct (Hm w1 w2 Hw) as (Hev & Hj & Ho).
  destruct (outcome (m1 w1)) as [a1|e1|], (outcome (m2 w2)) as [a2|e2|];
    simpl in Ho; try contradiction;
    try (split_polling; fail).
  destruct (Hf a1 a2 Ho _ _ Hj) as (Hev' & Hj' & Ho').
  split_polling.
  rewrite !polling_app. congruence.
Qed.

Lemma same_polling_ret {A B} (R : A -> B -> Prop) a b (w1 w2 : World J F) :
  R a b -> job w1 = job w2 -> same_polling R (ret a w1) (ret b w2).
Proof. intros HR Hw. split_polling. Qed.

Lemma same_polling_job_status (w1 w2 : World J F) :
  job w1 = job w2 -> same_polling eq (job_status w1) (job_status w2).
Proof.
  intros Hw. unfold job_status. rewrite Hw.
  destruct (status (job w2)) as [[s|e] j]; split_polling.
Qed.

Lemma same_polling_job_queue_position (w1 w2 : World J F) :
  job w1 = job w2 ->
  same_polling eq (job_queue_position w1) (job_queue_position w2).
Proof.
  intros Hw. unfold job_queue_position. rewrite Hw.
  destruct (queue_position (job w2)) as [[s|e] j]; split_polling.
Qed.

Lemma same_polling_time_sleep secs (w1 w2 : World J F) :
  job w1 = job w2 ->
  same_polling eq (time_sleep secs w1) (time_sleep secs w2).
Proof.
  intros Hw. split_polling.
  destruct (sleep_outcome secs) as [[]| |]; simpl; auto.
Qed.

Lemma same_polling_py_max a b (w1 w2 : World J F) :
  job w1 = job w2 -> same_polling eq (py_max a b w1) (py_max a b w2).
Proof. intros Hw. destruct a; split_polling. Qed.

Lemma same_polling_poll i s (w1 w2 : World J F) :
  job w1 = job w2 -> same_polling eq (poll i s w1) (poll i s w2).
Proof.
  revert w1 w2. unfold poll.
  apply same_polling_bind with (R := eq);
    [apply same_polling_job_status|]. intros st ? <-.
  apply same_polling_bind with (R := eq).
  { intros w1 w2 Hw. destruct (name st =? "QUEUED")%string.
    - unfold job_hasattr_queue_position. rewrite Hw.
      now apply same_polling_ret.
    - now apply same_polling_ret. }
  intros [|] ? <-.
  - apply same_polling_bind with (R := eq);
      [apply same_polling_job_queue_position|]. intros p ? <-.
    apply same_polling_bind with (R := eq);
      [apply same_polling_job_queue_position|]. intros [z|] ? <- w1 w2 Hw.
    + destruct (negb s); [|now apply same_polling_ret].
      revert w1 w2 Hw. apply same_polling_bind with (R := eq);
        [apply same_polling_job_queue_position|]. intros p3 ? <-.
      apply same_polling_bind with (R := eq);
        [apply same_polling_py_max|]. intros x ? <- w1 w2 Hw.
      now apply same_polling_ret.
    + now apply same_polling_ret.
  - intros w1 w2 Hw. destruct (negb s); now apply same_polling_ret.
Qed.

Lemma agree_bind {A1 A2 B1 B2}
    (R : A1 -> A2 -> Prop) (R' : B1 -> B2 -> Prop)
    (m1 : M (World J F) A1) (m2 : M (World J F) A2)
    (f1 : A1 -> M (World J F) B1) (f2 : A2 -> M (World J F) B2) :
  (forall w1 w2, job w1 = job w2 -> agree R (m1 w1) (m2 w2)) ->
  (forall a1 a2, R a1 a2 ->
     forall w1 w2, job w1 = job w2 -> agree R' (f1 a1 w1) (f2 a2 w2)) ->
  forall w1 w2, job w1 = job w2 -> agree R' (bind m1 f1 w1) (bind m2 f2 w2).
Proof.
  intros Hm Hf w1 w2 Hw. unfold agree. rewrite !bind_unfold.
  destruct (Hm w1 w2 Hw) as [Hfail | (Hev & Hj & Ho)].
  - left. destruct (outcome (m2 w2)); simpl; auto.
    rewrite existsb_app, Hfail. reflexivity.
  - destruct (outcome (m1 w1)) as [a1|e1|], (outcome (m2 w2)) as [a2|e2|];
      simpl in Ho; try contradiction;
      try (right; split_polling; fail).
    destruct (Hf a1 a2 Ho _ _ Hj) as [Hfail | (Hev' & Hj' & Ho')].
    + left. simpl. rewrite existsb_app, Hfail. apply orb_true_r.
    + right. split_polling. rewrite !polling_app. congruence.
Qed.

(** A print is not seen in the polling, unless it raises. *)
Lemma agree_print {A} (a : A) t e (w1 w2 : World J F) :
  job w1 = job w2 -> agree (fun _ _ => True) (ret a w1) (print t e w2).
Proof.
  intros Hw. unfold agree, print.
  destruct (write (t ++ e)%string (output w2)) as [[[]|x] o]; simpl.
  - right. split_polling.
  - left. reflexivity.
Qed.

Lemma agree_loop_body s ld st1 st2 (w1 w2 : World J F) :
  same_steering st1 st2 -> job w1 = job w2 ->
  agree same_steering
    (loop_body s true ld st1 w1) (loop_body s false ld st2 w2).
Proof.
  intros (Hs & Hi & Hl). revert w1 w2. unfold loop_body.
  rewrite Hi, Hl.
  apply agree_bind with (R := eq).
  { intros w1 w2 Hw. right. now apply same_polling_time_sleep. }
  intros _ _ _.
  apply agree_bind with (R := eq).
  { intros w1 w2 Hw. right. now apply same_polling_poll. }
  intros [[s' msg] i] ? <- w1 w2 Hw.
  destruct (adjust msg (msg_len st2)) as [msg' len'].
  rewrite andb_false_r, andb_true_r.
  destruct (negb (msg' =? prev_msg st2)%string).
  - change (ret {| cur_status := s'; interval := i; msg_len := len';
                   prev_msg := prev_msg st1 |} w1)
      with (bind (ret tt)
              (fun _ => ret {| cur_status := s'; interval := i;
                               msg_len := len'; prev_msg := prev_msg st1 |})
              w1).
    revert w1 w2 Hw.
    apply agree_bind with (R := fun _ _ => True).
    + intros w1 w2 Hw. now apply agree_print.
    + intros _ _ _ w1 w2 Hw. right. apply same_polling_ret; auto.
      repeat split.
  - right. apply same_polling_ret; auto. repeat split.
Qed.

Lemma agree_while_loop fuel s ld st1 st2 (w1 w2 : World J F) :
  same_steering st1 st2 -> job w1 = job w2 ->
  agree same_steering
    (while_loop fuel s true ld st1 w1) (while_loop fuel s false ld st2 w2).
Proof.
  revert st1 st2 w1 w2.
  induction fuel as [|fuel IH]; intros st1 st2 w1 w2 Hst Hw; simpl;
    destruct Hst as (Hs & Hi & Hl); rewrite Hs;
    destruct (negb (in_terminal (name (cur_status st2)))).
  - right. split_polling.
  - right. apply same_polling_ret; auto. repeat split; auto.
  - revert w1 w2 Hw.
    apply agree_bind with (R := same_steering).
    + intros w1 w2 Hw. apply agree_loop_body; auto.
      repeat split; auto.
    + intros a1 a2 Ha w1 w2 Hw. now apply IH.
  - right. apply same_polling_ret; auto. repeat split; auto.
Qed.

Lemma agree_text_checker fuel i s ld (w1 w2 : World J F) :
  job w1 = job w2 ->
  agree (fun _ _ => True)
    (_text_checker fuel i s true ld w1) (_text_checker fuel i s false ld w2).
Proof.
  revert w1 w2. unfold _text_checker.
  apply agree_bind with (R := eq).
  { intros w1 w2 Hw. right. now apply same_polling_job_status. }
  intros st ? <-.
  apply agree_bind with (R := fun _ _ => True).
  { intros w1 w2 Hw. simpl. now apply agree_print. }
  intros _ _ _.
  apply agree_bind with (R := same_steering).
  { intros w1 w2 Hw. apply agree_while_loop; auto. repeat split. }
  intros _ _ _ w1 w2 Hw. simpl. now apply agree_print.
Qed.

(** C10, as the code has it: as long as no write to the output file
    raises, the quiet and the talkative run from the same start make
    the same calls to [job.status()], [job.queue_position()] and
    [time.sleep], with the same answers and in the same order, leave the
    job in the same state and end in the same way. *)
Theorem quiet_does_not_change_polling :
  forall (fuel : nat) (interval : option Z) (line_discipline : string)
         (w : World J F),
    let quiet_run := job_monitor fuel interval true line_discipline w in
    let loud_run := job_monitor fuel interval false line_discipline w in
    existsb failed_write (events loud_run) = false ->
    polling (events quiet_run) = polling (events loud_run) /\
    job (final quiet_run) = job (final loud_run) /\
    outcome quiet_run = outcome loud_run.
Proof.
  intros fuel interval ld w quiet_run loud_run Hwr.
  assert (H : agree (fun _ _ => True) quiet_run loud_run).
  { subst quiet_run loud_run.
    destruct interval; apply agree_text_checker; reflexivity. }
  destruct H as [H | (Hev & Hj & Ho)]; [congruence|].
  repeat split; auto.
  destruct (outcome quiet_run) as [[]| |], (outcome loud_run) as [[]| |];
    simpl in Ho; try contradiction; congruence.
Qed.
End QuietFlag.

(** ** The printed line never shrinks *)

Lemma length_append (s1 s2 : string) :
  String.length (s1 ++ s2) = String.length s1 + String.length s2.
Proof. induction s1 as [|c s1 IH]; simpl; auto. Qed.

Lemma length_spaces n : String.length (spaces n) = n.
Proof. induction n; simpl; auto. Qed.

Lemma append_empty_r (s : string) : (s ++ "")%string = s.
Proof. induction s as [|c s IH]; simpl; congruence. Qed.

Lemma length_status_line ld msg :
  String.length (status_line ld msg) = String.length ld + 12 + String.length msg.
Proof. unfold status_line. rewrite !length_append. simpl. lia. Qed.

(** The adjustment in closed form: the message is padded with spaces up
    to [msg_len], and [msg_len] becomes the larger of the two lengths,
    which is the length of the adjusted message. *)
Lemma adjust_spec msg n :
  adjust msg n =
    ((msg ++ spaces (n - String.length msg))%string, Nat.max n (String.length msg)).
Proof.
  unfold adjust.
  destruct (Nat.ltb_spec (String.length msg) n) as [H|H].
  - f_equal. lia.
  - replace (n - String.length msg) with 0 by lia. simpl.
    rewrite append_empty_r.
    destruct (Nat.ltb_spec n (String.length msg)); f_equal; lia.
Qed.

Lemma adjust_length msg n :
  String.length (fst (adjust msg n)) = snd (adjust msg n).
Proof.
  rewrite adjust_spec. simpl. rewrite length_append, length_spaces. lia.
Qed.

Lemma ascending_weaken n n' msgs :
  n <= n' -> ascending n' msgs -> ascending n msgs.
Proof. destruct msgs; simpl; intuition lia. Qed.

Lemma ascending_sorted ld n msgs :
  ascending n msgs ->
  Sorted (no_longer_printed ld) msgs /\
  forall h, String.length h <= n -> HdRel (no_longer_printed ld) h msgs.
Proof.
  revert n. induction msgs as [|m rest IH]; simpl; intros n H.
  - split; constructor.
  - destruct H as [Hn Hrest]. destruct (IH _ Hrest) as [Hs Hh]. split.
    + constructor; auto.
    + intros h Hle. constructor. unfold no_longer_printed.
      rewrite !length_status_line. lia.
Qed.

Lemma writes_app l1 l2 : writes (l1 ++ l2) = writes l1 ++ writes l2.
Proof. apply flat_map_app. Qed.

Section Padding.
Context {J F : Type} `{JobJ : Job J} `{OutF : Output F}.

Lemma writes_bind {A B} (m : M (World J F) A) (f : A -> M (World J F) B) w :
  writes (events (bind m f w)) =
  writes (events (m w)) ++
  match outcome (m w) with
  | Ok a => writes (events (f a (final (m w))))
  | _ => []
  end.
Proof.
  rewrite bind_unfold. destruct (outcome (m w)); simpl;
    rewrite ?writes_app, ?app_nil_r; reflexivity.
Qed.

Lemma outcome_bind_ok {A B} (m : M (World J F) A) (f : A -> M (World J F) B)
    w b :
  outcome (bind m f w) = Ok b ->
  exists a, outcome (m w) = Ok a /\ outcome (f a (final (m w))) = Ok b.
Proof.
  rewrite bind_unfold. destruct (outcome (m w)) as [a| |]; simpl;
    try discriminate. eauto.
Qed.

Lemma writes_print t e (w : World J F) :
  writes (events (print t e w)) = [(t ++ e)%string].
Proof. unfold print. destruct (write _ _). reflexivity. Qed.

(** One iteration, given what fetching the status produced: at most
    one line is written, it shows the padded message, and [msg_len]
    becomes the larger of its old value and the new message's length. *)
Lemma loop_body_padding s q ld st (w : World J F) s' raw i' :
  (0 <= interval st <= sleep_max)%Z ->
  outcome (poll (interval st) s w) = Ok (s', raw, i') ->
  let r := loop_body s q ld st w in
  (writes (events r) = [] \/
   writes (events r) =
     [status_line ld (raw ++ spaces (msg_len st - String.length raw))]) /\
  forall st', outcome r = Ok st' ->
    msg_len st' = Nat.max (msg_len st) (String.length raw).
Proof.
  intros Hi Hp r. subst r. unfold loop_body.
  assert (Hsleep : outcome (time_sleep (interval st) w) = Ok tt)
    by exact (sleep_outcome_returns _ Hi).
  rewrite (bind_ok _ _ _ _ Hsleep). simpl final.
  rewrite (bind_ok _ _ _ _ Hp). simpl.
  pose proof (silent_poll (interval st) s w) as Hsil.
  unfold silent in Hsil. rewrite writes_app, Hsil. simpl.
  rewrite adjust_spec.
  destruct (negb _ && negb q).
  - rewrite writes_bind, writes_print, append_empty_r. split.
    + right. destruct (outcome (print _ _ _)); reflexivity.
    + intros st' H. rewrite bind_unfold in H.
      destruct (outcome (print _ _ _)); simpl in H; try discriminate.
      injection H as <-. reflexivity.
  - simpl. split; [left; reflexivity|].
    intros st' H. injection H as <-. reflexivity.
Qed.

Lemma loop_body_writes s q ld st (w : World J F) :
  let r := loop_body s q ld st w in
  (forall st', outcome r = Ok st' -> msg_len st <= msg_len st') /\
  (writes (events r) = [] \/
   exists m, writes (events r) = [status_line ld m] /\
             msg_len st <= String.length m /\
             forall st', outcome r = Ok st' -> String.length m <= msg_len st').
Proof.
  intros r.
  destruct (sleep_outcome_cases (interval st)) as [[Hpos Hs]|[Hneg [x Hs]]].
  2:{ subst r. unfold loop_body. rewrite bind_unfold. simpl.
      rewrite Hs. simpl. split; [discriminate|left; reflexivity]. }
  destruct (outcome (poll (interval st) s w)) as [[[s' raw] i']|e|] eqn:Hp.
  - destruct (loop_body_padding s q ld st w s' raw i' Hpos Hp) as [Hw Hl].
    fold r in Hw, Hl. split.
    + intros st' H. rewrite (Hl _ H). lia.
    + destruct Hw as [Hw|Hw]; [left; exact Hw|right].
      eexists. split; [exact Hw|].
      rewrite length_append, length_spaces. split; [lia|].
      intros st' H. rewrite (Hl _ H). lia.
  - subst r. unfold loop_body. rewrite bind_unfold. simpl.
    rewrite Hs. simpl.
    rewrite bind_unfold, Hp. simpl.
    split; [discriminate|left; apply silent_poll].
  - subst r. unfold loop_body. rewrite bind_unfold. simpl.
    rewrite Hs. simpl.
    rewrite bind_unfold, Hp. simpl.
    split; [discriminate|left; apply silent_poll].
Qed.

Lemma while_loop_writes fuel s q ld st (w : World J F) :
  exists msgs,
    writes (events (while_loop fuel s q ld st w)) = map (status_line ld) msgs /\
    ascending (msg_len st) msgs.
Proof.
  revert st w. induction fuel as [|fuel IH]; intros st w; simpl;
    destruct (negb (in_terminal (name (cur_status st))));
    try (exists []; split; [reflexivity|exact I]).
  rewrite writes_bind.
  destruct (loop_body_writes s q ld st w) as [Hlen Hw].
  destruct (outcome (loop_body s q ld st w)) as [st'| |] eqn:Ho.
  - destruct (IH st' (final (loop_body s q ld st w))) as (msgs & Hm & Hasc).
    rewrite Hm. specialize (Hlen _ eq_refl).
    destruct Hw as [Hw|(m & Hw & Hlo & Hhi)]; rewrite Hw.
    + exists msgs. split; [reflexivity|].
      eapply ascending_weaken; eauto.
    + exists (m :: msgs). split; [reflexivity|]. split; [exact Hlo|].
      eapply ascending_weaken; [|exact Hasc]. auto.
  - destruct Hw as [Hw|(m & Hw & Hlo & _)]; rewrite Hw, app_nil_r.
    + exists []. split; [reflexivity|exact I].
    + exists [m]. split; [reflexivity|]. simpl. auto.
  - destruct Hw as [Hw|(m & Hw & Hlo & _)]; rewrite Hw, app_nil_r.
    + exists []. split; [reflexivity|exact I].
    + exists [m]. split; [reflexivity|]. simpl. auto.
Qed.

Lemma text_checker_writes fuel i s q ld (w : World J F) :
  exists msgs tail,
    writes (events (_text_checker fuel i s q ld w))
      = map (status_line ld) msgs ++ tail /\
    (tail = [] \/ tail = [newline]) /\
    Sorted (no_longer_printed ld) msgs.
Proof.
  unfold _text_checker. rewrite writes_bind.
  pose proof (silent_job_status w) as Hst. unfold silent in Hst.
  rewrite Hst. simpl.
  destruct (outcome (job_status w)) as [st| |];
    try solve [exists [], []; repeat split; auto; constructor].
  set (w1 := final (job_status w)).
  destruct q; simpl.
  - exists [], []. split; [|split; [auto|constructor]].
    change (silent (events (bind (ret tt)
      (fun _ => bind (while_loop fuel s true ld
          {| cur_status := st; interval := i;
             msg_len := String.length (value st); prev_msg := value st |})
        (fun _ => ret tt)) w1))).
    apply silent_bind; [intros; reflexivity|]. intros _.
    apply silent_bind; [apply silent_while_loop|]. intros; reflexivity.
  - rewrite writes_bind, writes_print, append_empty_r.
    destruct (outcome (print _ _ w1)); simpl;
      try solve [exists [value st], []; repeat split; auto;
                 repeat constructor].
    rewrite writes_bind.
    match goal with |- context [while_loop fuel s false ld ?st0 ?w0] =>
      destruct (while_loop_writes fuel s false ld st0 w0) as (msgs & Hm & Hasc);
      rewrite Hm; simpl in Hasc;
      destruct (outcome (while_loop fuel s false ld st0 w0))
    end.
    + rewrite writes_print. simpl.
      exists (value st :: msgs), [newline]. split; [reflexivity|].
      split; [auto|].
      destruct (ascending_sorted ld _ _ Hasc) as [Hs Hh].
      constructor; auto.
    + exists (value st :: msgs), []. rewrite !app_nil_r.
      split; [reflexivity|]. split; [auto|].
      destruct (ascending_sorted ld _ _ Hasc) as [Hs Hh].
      constructor; auto.
    + exists (value st :: msgs), []. rewrite !app_nil_r.
      split; [reflexivity|]. split; [auto|].
      destruct (ascending_sorted ld _ _ Hasc) as [Hs Hh].
      constructor; auto.
Qed.

(** C6: all that a session writes is a sequence of status lines,
    followed by the final newline if the session gets there, and of any
    two status lines written one after the other the second is at least
    as long as the first.  Within an iteration whose sleep returns the
    message is padded with spaces up to [msg_len], which then becomes
    the larger of its old value and the new message's length. *)
Theorem printed_length_never_shrinks :
  (forall (fuel : nat) (interval : option Z) (quiet : bool)
          (line_discipline : string) (w : World J F),
     exists msgs tail,
       writes (events (job_monitor fuel interval quiet line_discipline w))
         = map (status_line line_discipline) msgs ++ tail /\
       (tail = [] \/ tail = [newline]) /\
       Sorted (fun a b =>
                 String.length (status_line line_discipline a)
                 <= String.length (status_line line_discipline b)) msgs) /\
  (forall (_interval_set quiet : bool) (line_discipline : string)
          (st : Locals) (w : World J F)
          (status' : Status) (msg : string) (interval' : Z),
     (0 <= interval st <= sleep_max)%Z ->
     outcome (poll (interval st) _interval_set w)
       = Ok (status', msg, interval') ->
     let r := loop_body _interval_set quiet line_discipline st w in
     (writes (events r) = [] \/
      writes (events r) =
        [status_line line_discipline
           (msg ++ spaces (msg_len st - String.length msg))]) /\
     forall st', outcome r = Ok st' ->
       msg_len st' = Nat.max (msg_len st) (String.length msg)).
Proof.
  split.
  - intros fuel [i|] q ld w; apply text_checker_writes.
  - intros. now apply loop_body_padding with (s' := status') (i' := interval').
Qed.
End Padding.

(** ** What one iteration does, given the job's answers *)

Section Iteration.
Context {J F : Type} `{JobJ : Job J} `{OutF : Output F}.

(** The status is not QUEUED, or the job has no [queue_position]. *)
Lemma poll_plain i set (w : World J F) s j1 :
  status (job w) = (Returns s, j1) ->
  (name s =? "QUEUED")%string && has_queue_position j1 = false ->
  poll i set w =
    {| outcome := Ok (s, value s, if set then i else 2%Z);
       final := at_job j1 w;
       events := [EvStatus (Returns s)] |}.
Proof.
  intros Hs Hq. unfold poll, bind, job_status, job_hasattr_queue_position.
  rewrite Hs. simpl.
  destruct (name s =? "QUEUED")%string; simpl in *.
  - rewrite Hq. simpl. destruct set; reflexivity.
  - destruct set; reflexivity.
Qed.

(** A QUEUED status on a job with [queue_position], second call null. *)
Lemma poll_queued_null i set (w : World J F) s j1 p1 j2 j3 :
  status (job w) = (Returns s, j1) ->
  name s = "QUEUED" ->
  has_queue_position j1 = true ->
  queue_position j1 = (Returns p1, j2) ->
  queue_position j2 = (Returns None, j3) ->
  poll i set w =
    {| outcome := Ok (s, queued_msg s p1, 2%Z);
       final := at_job j3 w;
       events := [EvStatus (Returns s); EvQueuePosition (Returns p1);
                  EvQueuePosition (Returns None)] |}.
Proof.
  intros Hs Hn Hh Hq1 Hq2.
  unfold poll, bind, job_status, job_hasattr_queue_position,
    job_queue_position.
  rewrite Hs. simpl. rewrite Hn. simpl. rewrite Hh. simpl.
  rewrite Hq1. simpl. rewrite Hq2. reflexivity.
Qed.

(** Second call not null, interval set by the user. *)
Lemma poll_queued_fixed i (w : World J F) s j1 p1 j2 z2 j3 :
  status (job w) = (Returns s, j1) ->
  name s = "QUEUED" ->
  has_queue_position j1 = true ->
  queue_position j1 = (Returns p1, j2) ->
  queue_position j2 = (Returns (Some z2), j3) ->
  poll i true w =
    {| outcome := Ok (s, queued_msg s p1, i);
       final := at_job j3 w;
       events := [EvStatus (Returns s); EvQueuePosition (Returns p1);
                  EvQueuePosition (Returns (Some z2))] |}.
Proof.
  intros Hs Hn Hh Hq1 Hq2.
  unfold poll, bind, job_status, job_hasattr_queue_position,
    job_queue_position.
  rewrite Hs. simpl. rewrite Hn. simpl. rewrite Hh. simpl.
  rewrite Hq1. simpl. rewrite Hq2. reflexivity.
Qed.

(** Second call not null, interval not set: a third call decides. *)
Lemma poll_queued_auto i (w : World J F) s j1 p1 j2 z2 j3 r3 j4 :
  status (job w) = (Returns s, j1) ->
  name s = "QUEUED" ->
  has_queue_position j1 = true ->
  queue_position j1 = (Returns p1, j2) ->
  queue_position j2 = (Returns (Some z2), j3) ->
  queue_position j3 = (r3, j4) ->
  poll i false w =
    {| outcome :=
         match r3 with
         | Returns (Some z3) => Ok (s, queued_msg s p1, Z.max z3 2)
         | Returns None =>
             Raised (TypeError
               "'>' not supported between instances of 'int' and 'NoneType'")
         | Raises e => Raised e
         end;
       final := at_job j4 w;
       events := [EvStatus (Returns s); EvQueuePosition (Returns p1);
                  EvQueuePosition (Returns (Some z2)); EvQueuePosition r3] |}.
Proof.
  intros Hs Hn Hh Hq1 Hq2 Hq3.
  unfold poll, bind, job_status, job_hasattr_queue_position,
    job_queue_position.
  rewrite Hs. simpl. rewrite Hn. simpl. rewrite Hh. simpl.
  rewrite Hq1. simpl. rewrite Hq2. simpl. rewrite Hq3.
  destruct r3 as [[z3|]|e]; reflexivity.
Qed.

Lemma print_returns t e (w : World J F) :
  accepts_writes F ->
  outcome (print t e w) = Ok tt /\
  job (final (print t e w)) = job w /\
  events (print t e w) = [EvWrite (t ++ e)%string (Returns tt)].
Proof.
  intros Hacc. unfold print. specialize (Hacc (t ++ e)%string (output w)).
  destruct (write _ _) as [r o]. simpl in *. subst r. auto.
Qed.

(** With a sleep that is accepted, a fetch that returns and an output
    that takes the line, the iteration returns, and hands the fetched
    status and the chosen interval to the next one. *)
Lemma loop_body_returns set q ld st (w : World J F) s' raw i' :
  accepts_writes F ->
  (0 <= interval st <= sleep_max)%Z ->
  outcome (poll (interval st) set w) = Ok (s', raw, i') ->
  exists st',
    outcome (loop_body set q ld st w) = Ok st' /\
    cur_status st' = s' /\ interval st' = i' /\
    job (final (loop_body set q ld st w))
      = job (final (poll (interval st) set w)).
Proof.
  intros Hacc Hi Hp. unfold loop_body.
  assert (Hsleep : outcome (time_sleep (interval st) w) = Ok tt)
    by exact (sleep_outcome_returns _ Hi).
  rewrite (bind_ok _ _ _ _ Hsleep). simpl final.
  rewrite (bind_ok _ _ _ _ Hp). simpl.
  destruct (adjust raw (msg_len st)) as [msg' len'].
  destruct (negb _ && negb q).
  - destruct (print_returns (status_line ld msg') ""
                (final (poll (interval st) set w)) Hacc) as (Ho & Hj & _).
    rewrite (bind_ok _ _ _ _ Ho). simpl. eauto.
  - simpl. eauto.
Qed.

(** Each iteration starts by sleeping for the current interval. *)
Lemma loop_body_sleeps_first set q ld st (w : World J F) :
  exists rest,
    events (loop_body set q ld st w) = EvSleep (interval st) :: rest.
Proof.
  unfold loop_body. rewrite bind_unfold. simpl.
  destruct (sleep_outcome (interval st)); simpl; eauto.
Qed.
Lemma while_loop_step fuel set q ld st :
  in_terminal (name (cur_status st)) = false ->
  while_loop (S fuel) set q ld st =
  bind (loop_body set q ld st) (while_loop (J := J) (F := F) fuel set q ld).
Proof. intros H. simpl. rewrite H. reflexivity. Qed.

Lemma while_loop_stop fuel set q ld st :
  in_terminal (name (cur_status st)) = true ->
  while_loop (J := J) (F := F) fuel set q ld st = ret st.
Proof. intros H. destruct fuel; simpl; rewrite H; reflexivity. Qed.

(** One talkative iteration in closed form, given the run of its fetch
    and the answer of the output file to the line, if one is due. *)
Lemma loop_body_run set ld st (w w1 : World J F) s' raw i' evs :
  (0 <= interval st <= sleep_max)%Z ->
  poll (interval st) set w =
    {| outcome := Ok (s', raw, i'); final := w1; events := evs |} ->
  let msg := (raw ++ spaces (msg_len st - String.length raw))%string in
  let len := Nat.max (msg_len st) (String.length raw) in
  loop_body set false ld st w =
    if (msg =? prev_msg st)%string then
      {| outcome := Ok {| cur_status := s'; interval := i';
                          msg_len := len; prev_msg := prev_msg st |};
         final := w1;
         events := EvSleep (interval st) :: evs |}
    else
      let (r, o') := write (status_line ld msg ++ "")%string (output w1) in
      {| outcome :=
           match r with
           | Returns _ => Ok {| cur_status := s'; interval := i';
                                msg_len := len; prev_msg := msg |}
           | Raises e => Raised e
           end;
         final := {| job := job w1; output := o' |};
         events := EvSleep (interval st)
                     :: evs ++ [EvWrite (status_line ld msg ++ "")%string r] |}.
Proof.
  intros Hi Hp msg len. unfold loop_body.
  assert (Hsleep : time_sleep (interval st) w =
            {| outcome := Ok tt; final := w;
               events := [EvSleep (interval st)] |}).
  { unfold time_sleep. now rewrite (sleep_outcome_returns _ Hi). }
  rewrite (bind_run _ _ _ _ _ _ _ Hsleep eq_refl).
  rewrite (bind_run _ _ _ _ _ _ _ Hp eq_refl).
  rewrite adjust_spec. fold msg len.
  rewrite andb_true_r.
  destruct (msg =? prev_msg st)%string; simpl.
  - rewrite app_nil_r. reflexivity.
  - unfold bind, print.
    destruct (write (status_line ld msg ++ "")%string (output w1)) as [[[]|e] o'];
      simpl; rewrite ?app_nil_r; reflexivity.
Qed.

(** An iteration that returns has had its fetch return; it hands on
    the status and the interval of the fetch, and the job as the fetch
    left it. *)
Lemma loop_body_ok_inv set q ld st (w : World J F) st' :
  outcome (loop_body set q ld st w) = Ok st' ->
  exists raw,
    outcome (poll (interval st) set w)
      = Ok (cur_status st', raw, interval st') /\
    job (final (loop_body set q ld st w))
      = job (final (poll (interval st) set w)).
Proof.
  unfold loop_body. rewrite bind_unfold. simpl.
  destruct (sleep_outcome (interval st)) as [[]|x|]; simpl; try discriminate.
  rewrite bind_unfold.
  destruct (outcome (poll (interval st) set w)) as [[[s' raw] i']|e|];
    simpl; try discriminate.
  destruct (adjust raw (msg_len st)) as [msg' len'].
  destruct (negb _ && negb q).
  - rewrite bind_unfold. unfold print.
    destruct (write _ _) as [[[]|e] o]; simpl; [|discriminate].
    intros H. injection H as <-. eauto.
  - simpl. intros H. injection H as <-. eauto.
Qed.








End Iteration.

(** ** Queued jobs: the message and the interval *)

Section Queued.
Context {J F : Type} `{JobJ : Job J} `{OutF : Output F}.

(** Whatever an iteration writes is the padded message of its fetch. *)
Lemma loop_body_shows set q ld st (w : World J F) t :
  In t (writes (events (loop_body set q ld st w))) ->
  exists s' raw i',
    outcome (poll (interval st) set w) = Ok (s', raw, i') /\
    t = status_line ld (raw ++ spaces (msg_len st - String.length raw)).
Proof.
  intros Hin.
  destruct (sleep_outcome_cases (interval st)) as [[Hpos Hs]|[Hneg [x Hs]]].
  2:{ unfold loop_body in Hin. rewrite bind_unfold in Hin. simpl in Hin.
      rewrite Hs in Hin. simpl in Hin. contradiction. }
  destruct (outcome (poll (interval st) set w)) as [[[s' raw] i']|e|] eqn:Hp.
  - destruct (loop_body_padding set q ld st w s' raw i' Hpos Hp) as [[Hw|Hw] _];
      rewrite Hw in Hin; simpl in Hin; [contradiction|].
    destruct Hin as [<-|[]]. eauto.
  - unfold loop_body in Hin. rewrite bind_unfold in Hin. simpl in Hin.
    rewrite Hs in Hin. simpl in Hin.
    rewrite bind_unfold, Hp in Hin. simpl in Hin.
    rewrite (silent_poll (interval st) set w) in Hin. contradiction.
  - unfold loop_body in Hin. rewrite bind_unfold in Hin. simpl in Hin.
    rewrite Hs in Hin. simpl in Hin.
    rewrite bind_unfold, Hp in Hin. simpl in Hin.
    rewrite (silent_poll (interval st) set w) in Hin. contradiction.
Qed.

(** C3, as the code has it: when the iteration fetches QUEUED from a
    job that has [queue_position] and the position is null, the suffix
    appended to the message is [" (None)"], the way [%s] renders
    [None]; any line the iteration writes shows that message, padded. *)
Theorem null_position_is_shown_as_None :
  forall (_interval_set quiet : bool) (line_discipline : string)
         (st : Locals) (w : World J F) (s : Status) (j1 j2 j3 : J),
    status (job w) = (Returns s, j1) ->
    name s = "QUEUED" ->
    has_queue_position j1 = true ->
    queue_position j1 = (Returns None, j2) ->
    queue_position j2 = (Returns None, j3) ->
    outcome (poll (interval st) _interval_set w)
      = Ok (s, (value s ++ " (None)")%string, 2%Z) /\
    forall t,
      In t (writes (events
              (loop_body _interval_set quiet line_discipline st w))) ->
      t = status_line line_discipline
            ((value s ++ " (None)")
             ++ spaces (msg_len st - String.length (value s ++ " (None)"))).
Proof.
  intros set q ld st w s j1 j2 j3 Hs Hn Hh Hq1 Hq2.
  pose proof (poll_queued_null (interval st) set w s j1 None j2 j3
                Hs Hn Hh Hq1 Hq2) as Hp.
  split; [rewrite Hp; reflexivity|].
  intros t Hin.
  destruct (loop_body_shows _ _ _ _ _ _ Hin) as (s' & raw & i' & Ho & ->).
  rewrite Hp in Ho. simpl in Ho. injection Ho as <- <- <-. reflexivity.
Qed.

(** C4: with no interval supplied, an iteration (whose own sleep
    returns) that fetches QUEUED from a job that has [queue_position]
    and reports position [p] leaves [max(p, 2)] as the interval, and 2
    when [p] is null; the next iteration starts by sleeping that long. *)
Theorem queued_interval_follows_position :
  forall (quiet : bool) (line_discipline : string) (st : Locals)
         (w : World J F) (s : Status) (p : option Z) (j1 j2 j3 j4 : J),
    accepts_writes F ->
    (0 <= interval st <= sleep_max)%Z ->
    status (job w) = (Returns s, j1) ->
    name s = "QUEUED" ->
    has_queue_position j1 = true ->
    queue_position j1 = (Returns p, j2) ->
    queue_position j2 = (Returns p, j3) ->
    (p <> None -> queue_position j3 = (Returns p, j4)) ->
    exists st',
      outcome (loop_body false quiet line_discipline st w) = Ok st' /\
      (forall w', exists rest,
         events (loop_body false quiet line_discipline st' w')
           = EvSleep (interval st') :: rest) /\
      match p with
      | Some z => ((2 <= z)%Z -> interval st' = z) /\
                  ((z < 2)%Z -> interval st' = 2%Z)
      | None => interval st' = 2%Z
      end.
Proof.
  intros q ld st w s p j1 j2 j3 j4 Hacc Hi Hs Hn Hh Hq1 Hq2 Hq3.
  assert (Hp : exists wf evs,
             poll (interval st) false w =
             {| outcome := Ok (s, queued_msg s p,
                               match p with Some z => Z.max z 2 | None => 2%Z end);
                final := wf; events := evs |}).
  { destruct p as [z|].
    - rewrite (poll_queued_auto (interval st) w s j1 (Some z) j2 z j3
                 (Returns (Some z)) j4 Hs Hn Hh Hq1 Hq2);
        [eauto|apply Hq3; discriminate].
    - rewrite (poll_queued_null (interval st) false w s j1 None j2 j3
                 Hs Hn Hh Hq1 Hq2). eauto. }
  destruct Hp as (wf & evs & Hp).
  destruct (loop_body_returns false q ld st w s (queued_msg s p)
              (match p with Some z => Z.max z 2 | None => 2%Z end) Hacc Hi)
    as (st' & Ho & _ & Hint & _).
  { rewrite Hp. reflexivity. }
  exists st'. split; [exact Ho|]. split.
  - intros w'. apply loop_body_sleeps_first.
  - rewrite Hint. destruct p as [z|]; [|reflexivity]. split; lia.
Qed.

(** C9: in an iteration that fetches QUEUED from a job that has
    [queue_position], the status fetch is followed by two calls of
    [queue_position()], and by a third exactly when the second one
    returned a position and the interval was not set by the user.  The
    message carries the answer of the first call; the interval is 2
    when the second answer is null, is left alone when the user set it,
    and is otherwise [max(third answer, 2)]. *)
Theorem queue_position_is_asked_two_or_three_times :
  forall (interval : Z) (_interval_set : bool) (w : World J F)
         (s : Status) (p1 p2 : option Z) (r3 : Res (option Z))
         (j1 j2 j3 j4 : J),
    status (job w) = (Returns s, j1) ->
    name s = "QUEUED" ->
    has_queue_position j1 = true ->
    queue_position j1 = (Returns p1, j2) ->
    queue_position j2 = (Returns p2, j3) ->
    queue_position j3 = (r3, j4) ->
    let r := poll interval _interval_set w in
    let n := queue_position_calls (events r) in
    (n = 2 \/ n = 3) /\
    (n = 3 <-> p2 <> None /\ _interval_set = false) /\
    (p2 = None -> outcome r = Ok (s, queued_msg s p1, 2%Z)) /\
    (p2 <> None -> _interval_set = true ->
       outcome r = Ok (s, queued_msg s p1, interval)) /\
    (p2 <> None -> _interval_set = false -> forall z3,
       r3 = Returns (Some z3) ->
       outcome r = Ok (s, queued_msg s p1, Z.max z3 2)).
Proof.
  intros i set w s p1 p2 r3 j1 j2 j3 j4 Hs Hn Hh Hq1 Hq2 Hq3 r n.
  subst n r.
  destruct p2 as [z2|]; [destruct set|].
  - rewrite (poll_queued_fixed i w s j1 p1 j2 z2 j3 Hs Hn Hh Hq1 Hq2).
    simpl. split; [auto|]. split; [split; [discriminate|]|].
    + intros [_ H]. discriminate.
    + repeat split; auto; discriminate.
  - rewrite (poll_queued_auto i w s j1 p1 j2 z2 j3 r3 j4
               Hs Hn Hh Hq1 Hq2 Hq3).
    simpl. split; [auto|]. split; [split; auto; split; [discriminate|auto]|].
    repeat split; try discriminate.
    intros _ _ z3 ->. reflexivity.
  - rewrite (poll_queued_null i set w s j1 p1 j2 j3 Hs Hn Hh Hq1 Hq2).
    simpl. split; [auto|]. split; [split; [discriminate|]|].
    + intros [H _]. now elim H.
    + repeat split; auto; intros H; now elim H.
Qed.
End Queued.

(** ** Termination on a script that reaches a terminal status *)


Section Termination.
Context {F : Type} `{OutF : Output F}.







End Termination.

(** ** The scenario of a job that is queued, then runs, then is done *)

Lemma adjust_longer msg n :
  n <= String.length msg -> adjust msg n = (msg, String.length msg).
Proof.
  intros H. rewrite adjust_spec.
  replace (n - String.length msg) with 0 by lia. simpl.
  rewrite append_empty_r. f_equal. lia.
Qed.

Lemma append_inj_l (p a b : string) : (p ++ a)%string = (p ++ b)%string -> a = b.
Proof. induction p as [|c p IH]; simpl; intros H; [exact H|]. injection H. auto. Qed.

Lemma status_line_inj ld a b : status_line ld a = status_line ld b -> a = b.
Proof.
  unfold status_line. intros H.
  apply append_inj_l in H. apply append_inj_l in H. now apply append_inj_l in H.
Qed.


Lemma eqb_false_of_neq (a b : string) : a <> b -> (a =? b)%string = false.
Proof. apply String.eqb_neq. Qed.

Lemma scenario_msg2_longer queued :
  String.length (scenario_msg2 queued) = String.length queued + 4.
Proof. unfold scenario_msg2. rewrite length_append. reflexivity. Qed.

Lemma step1 queued running done ld out :
  loop_body false false ld
    {| cur_status := st_queued queued; interval := 5;
       msg_len := String.length queued; prev_msg := queued |}
    (start (sjob [(st_queued queued, Some 1%Z); (st_running running, None);
                  (st_done done, None)] (Some 3%Z)) {| getvalue := out |}) =
  {| outcome := Ok {| cur_status := st_queued queued; interval := 2;
                      msg_len := String.length (scenario_msg2 queued);
                      prev_msg := scenario_msg2 queued |};
     final := start (sjob [(st_running running, None); (st_done done, None)]
                       (Some 1%Z))
                {| getvalue := (out ++ (status_line ld (scenario_msg2 queued) ++ ""))%string |};
     events :=
       [EvSleep 5; EvStatus (Returns (st_queued queued));
        EvQueuePosition (Returns (Some 1%Z));
        EvQueuePosition (Returns (Some 1%Z));
        EvQueuePosition (Returns (Some 1%Z));
        EvWrite (status_line ld (scenario_msg2 queued) ++ "")%string (Returns tt)] |}.
Proof.
  set (j1 := sjob [(st_running running, None); (st_done done, None)] (Some 1%Z)).
  match goal with |- loop_body _ _ _ ?st ?w = _ =>
    pose proof (poll_queued_auto (interval st) w (st_queued queued) j1 (Some 1%Z) j1 1%Z j1
                  (Returns (Some 1%Z)) j1 eq_refl eq_refl eq_refl eq_refl eq_refl eq_refl) as Hp;
    rewrite (loop_body_run false ld st w _ _ _ _ _ ltac:(unfold sleep_max; simpl; lia) Hp)
  end.
  cbv zeta. simpl msg_len. simpl prev_msg.
  change (queued_msg (st_queued queued) (Some 1%Z)) with (scenario_msg2 queued).
  replace (String.length queued - String.length (scenario_msg2 queued)) with 0
    by (rewrite scenario_msg2_longer; lia).
  simpl spaces. rewrite append_empty_r.
  rewrite eqb_false_of_neq.
  2:{ intros H. apply (f_equal String.length) in H.
      rewrite scenario_msg2_longer in H. lia. }
  simpl. unfold start. repeat f_equal. rewrite scenario_msg2_longer. lia.
Qed.

Lemma step2 queued running done ld out :
  scenario_msg3 queued running <> scenario_msg2 queued ->
  loop_body false false ld
    {| cur_status := st_queued queued; interval := 2;
       msg_len := String.length (scenario_msg2 queued);
       prev_msg := scenario_msg2 queued |}
    (start (sjob [(st_running running, None); (st_done done, None)] (Some 1%Z))
       {| getvalue := out |}) =
  {| outcome := Ok {| cur_status := st_running running; interval := 2;
                      msg_len := Nat.max (String.length (scenario_msg2 queued))
                                         (String.length running);
                      prev_msg := scenario_msg3 queued running |};
     final := start (sjob [(st_done done, None)] None)
                {| getvalue := (out ++ (status_line ld (scenario_msg3 queued running) ++ ""))%string |};
     events :=
       [EvSleep 2; EvStatus (Returns (st_running running));
        EvWrite (status_line ld (scenario_msg3 queued running) ++ "")%string
          (Returns tt)] |}.
Proof.
  intros H32.
  set (j1 := sjob [(st_done done, None)] None).
  match goal with |- loop_body _ _ _ ?st ?w = _ =>
    pose proof (poll_plain (interval st) false w (st_running running) j1
                  eq_refl eq_refl) as Hp;
    rewrite (loop_body_run false ld st w _ _ _ _ _ ltac:(unfold sleep_max; simpl; lia) Hp)
  end.
  cbv zeta. simpl msg_len. simpl prev_msg. simpl value.
  fold (scenario_msg3 queued running).
  rewrite (eqb_false_of_neq _ _ H32). reflexivity.
Qed.

Lemma step3 queued running done ld out :
  scenario_msg4 queued running done <> scenario_msg3 queued running ->
  loop_body false false ld
    {| cur_status := st_running running; interval := 2;
       msg_len := Nat.max (String.length (scenario_msg2 queued))
                          (String.length running);
       prev_msg := scenario_msg3 queued running |}
    (start (sjob [(st_done done, None)] None) {| getvalue := out |}) =
  {| outcome := Ok {| cur_status := st_done done; interval := 2;
                      msg_len :=
                        Nat.max (Nat.max (String.length (scenario_msg2 queued))
                                         (String.length running))
                                (String.length done);
                      prev_msg := scenario_msg4 queued running done |};
     final := start (sjob [] None)
                {| getvalue := (out ++ (status_line ld (scenario_msg4 queued running done) ++ ""))%string |};
     events :=
       [EvSleep 2; EvStatus (Returns (st_done done));
        EvWrite (status_line ld (scenario_msg4 queued running done) ++ "")%string
          (Returns tt)] |}.
Proof.
  intros H43.
  set (j1 := sjob [] None).
  match goal with |- loop_body _ _ _ ?st ?w = _ =>
    pose proof (poll_plain (interval st) false w (st_done done) j1
                  eq_refl eq_refl) as Hp;
    rewrite (loop_body_run false ld st w _ _ _ _ _ ltac:(unfold sleep_max; simpl; lia) Hp)
  end.
  cbv zeta. simpl msg_len. simpl prev_msg. simpl value.
  fold (scenario_msg4 queued running done).
  rewrite (eqb_false_of_neq _ _ H43). reflexivity.
Qed.

Lemma scenario_run fuel queued running done ld :
  scenario_msg3 queued running <> scenario_msg2 queued ->
  scenario_msg4 queued running done <> scenario_msg3 queued running ->
  job_monitor (3 + fuel) None false ld
    (start (scenario queued running done) {| getvalue := "" |}) =
  {| outcome := Ok tt;
     final :=
       start (sjob [] None)
         {| getvalue :=
              ((((("" ++ (status_line ld queued ++ ""))
                  ++ (status_line ld (scenario_msg2 queued) ++ ""))
                 ++ (status_line ld (scenario_msg3 queued running) ++ ""))
                ++ (status_line ld (scenario_msg4 queued running done) ++ ""))
               ++ ("" ++ newline))%string |};
     events :=
       [EvStatus (Returns (st_queued queued));
        EvWrite (status_line ld queued ++ "")%string (Returns tt);
        EvSleep 5;
        EvStatus (Returns (st_queued queued));
        EvQueuePosition (Returns (Some 1%Z));
        EvQueuePosition (Returns (Some 1%Z));
        EvQueuePosition (Returns (Some 1%Z));
        EvWrite (status_line ld (scenario_msg2 queued) ++ "")%string (Returns tt);
        EvSleep 2;
        EvStatus (Returns (st_running running));
        EvWrite (status_line ld (scenario_msg3 queued running) ++ "")%string
          (Returns tt);
        EvSleep 2;
        EvStatus (Returns (st_done done));
        EvWrite (status_line ld (scenario_msg4 queued running done) ++ "")%string
          (Returns tt);
        EvWrite ("" ++ newline)%string (Returns tt)] |}.
Proof.
  intros H32 H43.
  unfold job_monitor, _text_checker.
  set (w0 := start (scenario queued running done) {| getvalue := "" |}).
  assert (Hst : job_status w0 =
            {| outcome := Ok (st_queued queued);
               final := start (sjob [(st_queued queued, Some 1%Z);
                                     (st_running running, None);
                                     (st_done done, None)] (Some 3%Z))
                          {| getvalue := "" |};
               events := [EvStatus (Returns (st_queued queued))] |})
    by reflexivity.
  rewrite (bind_run _ _ _ _ _ _ _ Hst eq_refl).
  simpl negb. cbv iota.
  match goal with |- context [bind (print ?t ?e) _ ?w] =>
    assert (Hpr : print t e w =
              {| outcome := Ok tt;
                 final := start (sjob [(st_queued queued, Some 1%Z);
                                       (st_running running, None);
                                       (st_done done, None)] (Some 3%Z))
                            {| getvalue := ("" ++ (status_line ld queued ++ ""))%string |};
                 events := [EvWrite (status_line ld queued ++ "")%string (Returns tt)] |})
      by reflexivity
  end.
  rewrite (bind_run _ _ _ _ _ _ _ Hpr eq_refl).
  assert (Hloop : forall out,
            while_loop (3 + fuel) false false ld
              {| cur_status := st_queued queued; interval := 5;
                 msg_len := String.length queued; prev_msg := queued |}
              (start (sjob [(st_queued queued, Some 1%Z);
                            (st_running running, None);
                            (st_done done, None)] (Some 3%Z))
                     {| getvalue := out |}) =
            {| outcome := Ok {| cur_status := st_done done; interval := 2;
                      msg_len :=
                        Nat.max (Nat.max (String.length (scenario_msg2 queued))
                                         (String.length running))
                                (String.length done);
                      prev_msg := scenario_msg4 queued running done |};
               final := start (sjob [] None)
                 {| getvalue :=
                      (((out ++ (status_line ld (scenario_msg2 queued) ++ ""))
                        ++ (status_line ld (scenario_msg3 queued running) ++ ""))
                       ++ (status_line ld (scenario_msg4 queued running done) ++ ""))%string |};
               events :=
                 [EvSleep 5; EvStatus (Returns (st_queued queued));
                  EvQueuePosition (Returns (Some 1%Z));
                  EvQueuePosition (Returns (Some 1%Z));
                  EvQueuePosition (Returns (Some 1%Z));
                  EvWrite (status_line ld (scenario_msg2 queued) ++ "")%string (Returns tt)]
                 ++ [EvSleep 2; EvStatus (Returns (st_running running));
                     EvWrite (status_line ld (scenario_msg3 queued running) ++ "")%string
                       (Returns tt)]
                 ++ [EvSleep 2; EvStatus (Returns (st_done done));
                     EvWrite (status_line ld (scenario_msg4 queued running done) ++ "")%string
                       (Returns tt)] ++ [] |}).
  { intros out. change (3 + fuel) with (S (S (S fuel))).
    rewrite while_loop_step by reflexivity.
    rewrite (bind_run _ _ _ _ _ _ _ (step1 queued running done ld out) eq_refl).
    rewrite while_loop_step by reflexivity.
    rewrite (bind_run _ _ _ _ _ _ _ (step2 queued running done ld _ H32) eq_refl).
    rewrite while_loop_step by reflexivity.
    rewrite (bind_run _ _ _ _ _ _ _ (step3 queued running done ld _ H43) eq_refl).
    rewrite while_loop_stop by reflexivity.
    reflexivity. }
  rewrite (bind_run _ _ _ _ _ _ _ (Hloop _) eq_refl).
  reflexivity.
Qed.

Lemma append_assoc (a b c : string) : ((a ++ b) ++ c)%string = (a ++ (b ++ c))%string.
Proof. induction a as [|x a IH]; simpl; congruence. Qed.

Lemma scenario_msg3_length queued running :
  String.length (scenario_msg2 queued) <= String.length (scenario_msg3 queued running).
Proof. unfold scenario_msg3. rewrite length_append, length_spaces. lia. Qed.

Lemma scenario_msg4_length queued running done :
  String.length (scenario_msg2 queued)
  <= String.length (scenario_msg4 queued running done).
Proof. unfold scenario_msg4. rewrite length_append, length_spaces. lia. Qed.

(** C2, as the code has it: on the statuses QUEUED (position 3), QUEUED
    (position 1), RUNNING, DONE, with no interval supplied and not
    quiet, the monitor returns after sleeping 5, 2 and 2 seconds: the
    position 3 belongs to the status fetched before the loop and is
    never asked for.  It writes four status lines and then the newline,
    and nothing else; the four lines differ from one another as soon as
    the three messages after the first do. *)
Theorem scenario_sleeps_and_lines :
  forall (fuel : nat) (queued running done line_discipline : string),
    NoDup [scenario_msg2 queued; scenario_msg3 queued running;
           scenario_msg4 queued running done] ->
    let r := job_monitor (3 + fuel) None false line_discipline
               (start (scenario queued running done) {| getvalue := "" |}) in
    let line1 := status_line line_discipline queued in
    let line2 := status_line line_discipline (scenario_msg2 queued) in
    let line3 := status_line line_discipline (scenario_msg3 queued running) in
    let line4 := status_line line_discipline (scenario_msg4 queued running done) in
    outcome r = Ok tt /\
    sleeps (events r) = [5; 2; 2]%Z /\
    writes (events r) = [line1; line2; line3; line4; newline] /\
    NoDup [line1; line2; line3; line4] /\
    getvalue (output (final r))
      = (line1 ++ line2 ++ line3 ++ line4 ++ newline)%string.
Proof.
  intros fuel queued running done ld Hnd r line1 line2 line3 line4.
  assert (H32 : scenario_msg3 queued running <> scenario_msg2 queued).
  { inversion Hnd as [|? ? Hn _]. intros E. apply Hn. rewrite E. now left. }
  assert (H42 : scenario_msg4 queued running done <> scenario_msg2 queued).
  { inversion Hnd as [|? ? Hn _]. intros E. apply Hn. rewrite E.
    right. now left. }
  assert (H43 : scenario_msg4 queued running done <> scenario_msg3 queued running).
  { inversion Hnd as [|? ? _ Hnd']. inversion Hnd' as [|? ? Hn _].
    intros E. apply Hn. rewrite E. now left. }
  subst r. rewrite (scenario_run fuel queued running done ld H32 H43).
  simpl outcome. simpl events. simpl final.
  split; [reflexivity|]. split; [reflexivity|]. split; [|split].
  - simpl. rewrite !append_empty_r. reflexivity.
  - assert (L2 := scenario_msg2_longer queued).
    assert (L3 := scenario_msg3_length queued running).
    assert (L4 := scenario_msg4_length queued running done).
    assert (ne_len : forall a b : string,
              String.length a <> String.length b ->
              status_line ld a <> status_line ld b).
    { intros a b Hl E. apply status_line_inj in E. congruence. }
    assert (ne : forall a b : string,
              a <> b -> status_line ld a <> status_line ld b).
    { intros a b Hab E. apply status_line_inj in E. congruence. }
    subst line1 line2 line3 line4.
    repeat constructor; simpl; intros H;
      repeat match goal with
             | H : _ \/ _ |- _ => destruct H as [H|H]
             | H : False |- _ => contradiction
             end.
    + revert H. apply ne_len. lia.
    + revert H. apply ne_len. lia.
    + revert H. apply ne_len. lia.
    + revert H. apply ne. congruence.
    + revert H. apply ne. congruence.
    + revert H. apply ne. congruence.
  - simpl getvalue. rewrite !append_empty_r. simpl.
    rewrite !append_assoc. reflexivity.
Qed.

(** C2, counterexample: with the display strings of Qiskit's statuses
    the sleeps of the scenario are not 5, 3, 2, 2. *)
Lemma scenario_sleeps_are_not_5_3_2_2 :
  sleeps (events
    (job_monitor 10 None false carriage_return
       (start (scenario "job is queued" "job is actively running"
                 "job has successfully run") {| getvalue := "" |})))
  <> [5; 3; 2; 2]%Z.
Proof. vm_compute. discriminate. Qed.

(** C2, witness: the theorem at the display strings of Qiskit's
    statuses and the default line discipline. *)
Lemma scenario_sleeps_and_lines_witness :
  let queued := "job is queued" in
  let running := "job is actively running" in
  let done := "job has successfully run" in
  let r := job_monitor 3 None false carriage_return
             (start (scenario queued running done) {| getvalue := "" |}) in
  NoDup [scenario_msg2 queued; scenario_msg3 queued running;
         scenario_msg4 queued running done] /\
  sleeps (events r) = [5; 2; 2]%Z /\
  getvalue (output (final r))
    = (status_line carriage_return "job is queued"
       ++ status_line carriage_return "job is queued (1)"
       ++ status_line carriage_return "job is actively running"
       ++ status_line carriage_return "job has successfully run"
       ++ newline)%string.
Proof.
  intros queued running done r.
  assert (Hnd : NoDup [scenario_msg2 queued; scenario_msg3 queued running;
                       scenario_msg4 queued running done]).
  { repeat constructor; simpl; intros H;
      repeat match goal with
             | H : _ \/ _ |- _ => destruct H as [H|H]
             | H : False |- _ => contradiction
             end; vm_compute in H; discriminate. }
  split; [exact Hnd|].
  destruct (scenario_sleeps_and_lines 0 queued running done carriage_return Hnd)
    as (_ & Hs & _ & _ & Hg).
  split; [exact Hs|exact Hg].
Defined.

(** ** A supplied interval and null queue positions *)

Lemma sleeps_app l1 l2 : sleeps (l1 ++ l2) = sleeps l1 ++ sleeps l2.
Proof. apply flat_map_app. Qed.

Section SuppliedInterval.
Context {J F : Type} `{JobJ : Job J} `{OutF : Output F}.

Lemma sleeps_bind {A B} (m : M (World J F) A) (f : A -> M (World J F) B) w :
  sleeps (events (bind m f w)) =
  sleeps (events (m w)) ++
  match outcome (m w) with
  | Ok a => sleeps (events (f a (final (m w))))
  | _ => []
  end.
Proof.
  rewrite bind_unfold. destruct (outcome (m w)); simpl;
    rewrite ?sleeps_app, ?app_nil_r; reflexivity.
Qed.

Lemma events_bind_incl {A B} (m : M (World J F) A) (f : A -> M (World J F) B)
    w ev :
  In ev (events (m w)) -> In ev (events (bind m f w)).
Proof.
  intros H. rewrite bind_unfold. destruct (outcome (m w)); simpl; auto.
  apply in_or_app. now left.
Qed.

Lemma events_bind_incl_r {A B} (m : M (World J F) A) (f : A -> M (World J F) B)
    w a ev :
  outcome (m w) = Ok a ->
  In ev (events (f a (final (m w)))) -> In ev (events (bind m f w)).
Proof.
  intros E H. rewrite (bind_ok _ _ _ _ E). simpl. apply in_or_app. now right.
Qed.

(** With the interval set by the user, a fetch hands the interval on
    unchanged unless a queue position came back null. *)
Lemma poll_keeps_supplied_interval i (w : World J F) s msg i' :
  outcome (poll i true w) = Ok (s, msg, i') ->
  i' = i \/ In (EvQueuePosition (Returns None)) (events (poll i true w)).
Proof.
  unfold poll, bind, job_status, job_hasattr_queue_position,
    job_queue_position.
  destruct (status (job w)) as [[s0|e] j1]; simpl; [|discriminate].
  destruct (name s0 =? "QUEUED")%string; simpl;
    [destruct (has_queue_position j1); simpl|].
  - destruct (queue_position j1) as [[p1|e] j2]; simpl; [|discriminate].
    destruct (queue_position j2) as [[[z2|]|e] j3]; simpl;
      try discriminate; intros H; injection H as _ _ <-; auto.
  - intros H; injection H as _ _ <-; auto.
  - intros H; injection H as _ _ <-; auto.
Qed.

Lemma sleeps_poll i set (w : World J F) : sleeps (events (poll i set w)) = [].
Proof.
  unfold poll, bind, job_status, job_hasattr_queue_position,
    job_queue_position.
  destruct (status (job w)) as [[s0|e] j1]; simpl; [|reflexivity].
  destruct (name s0 =? "QUEUED")%string; simpl;
    [destruct (has_queue_position j1); simpl|].
  - destruct (queue_position j1) as [[p1|e] j2]; simpl; [|reflexivity].
    destruct (queue_position j2) as [[[z2|]|e] j3]; simpl; try reflexivity.
    destruct set; simpl; [reflexivity|].
    destruct (queue_position j3) as [[[z3|]|e] j4]; reflexivity.
  - destruct set; reflexivity.
  - destruct set; reflexivity.
Qed.

Lemma sleeps_print t e (w : World J F) : sleeps (events (print t e w)) = [].
Proof. unfold print. destruct (write _ _). reflexivity. Qed.

Lemma sleeps_loop_body set q ld st (w : World J F) :
  sleeps (events (loop_body set q ld st w)) = [interval st].
Proof.
  unfold loop_body. rewrite sleeps_bind. simpl.
  destruct (sleep_outcome (interval st)) as [[]| |]; try reflexivity.
  rewrite sleeps_bind, sleeps_poll. simpl.
  destruct (outcome (poll (interval st) set w)) as [[[s' msg] i']|e|];
    try reflexivity.
  destruct (adjust msg (msg_len st)) as [msg' len'].
  destruct (negb _ && negb q); [|reflexivity].
  rewrite sleeps_bind, sleeps_print. simpl.
  destruct (outcome (print _ _ _)); reflexivity.
Qed.

Lemma loop_body_keeps_supplied_interval q ld st (w : World J F) st' :
  outcome (loop_body true q ld st w) = Ok st' ->
  interval st' = interval st \/
  In (EvQueuePosition (Returns None)) (events (loop_body true q ld st w)).
Proof.
  intros Ho. destruct (loop_body_ok_inv _ _ _ _ _ _ Ho) as (raw & Hp & _).
  destruct (poll_keeps_supplied_interval _ _ _ _ _ Hp) as [Hi|Hin];
    [now left|right].
  unfold loop_body. rewrite bind_unfold. simpl.
  unfold loop_body in Ho. rewrite bind_unfold in Ho. simpl in Ho.
  destruct (sleep_outcome (interval st)) as [[]| |]; try discriminate. simpl.
  right. now apply events_bind_incl.
Qed.

Lemma while_loop_keeps_supplied_interval fuel q ld st (w : World J F) :
  In (EvQueuePosition (Returns None)) (events (while_loop fuel true q ld st w)) \/
  Forall (eq (interval st)) (sleeps (events (while_loop fuel true q ld st w))).
Proof.
  revert st w. induction fuel as [|fuel IH]; intros st w; simpl;
    destruct (negb (in_terminal (name (cur_status st))));
    try (right; constructor).
  destruct (outcome (loop_body true q ld st w)) as [st'|e|] eqn:Ho.
  - destruct (loop_body_keeps_supplied_interval _ _ _ _ _ Ho) as [Hi|Hin].
    + destruct (IH st' (final (loop_body true q ld st w))) as [Hin|Hall].
      * left. eapply events_bind_incl_r; eauto.
      * right. rewrite sleeps_bind, Ho, sleeps_loop_body. simpl.
        constructor; [reflexivity|]. rewrite <- Hi. exact Hall.
    + left. now apply events_bind_incl.
  - right. rewrite sleeps_bind, Ho, sleeps_loop_body. repeat constructor.
  - right. rewrite sleeps_bind, Ho, sleeps_loop_body. repeat constructor.
Qed.

(** X5: where the supplied interval does hold: in a session in which no
    call of [queue_position()] returns null, every sleep lasts the
    supplied interval. *)
Lemma supplied_interval_kept_without_null_position fuel i q ld (w : World J F) :
  ~ In (EvQueuePosition (Returns None))
       (events (job_monitor fuel (Some i) q ld w)) ->
  Forall (eq i) (sleeps (events (job_monitor fuel (Some i) q ld w))).
Proof.
  simpl. unfold _text_checker. intros Hno.
  rewrite sleeps_bind.
  replace (sleeps (events (job_status w))) with (@nil Z)
    by (unfold job_status; destruct (status (job w)); reflexivity).
  simpl.
  destruct (outcome (job_status w)) as [s0|e|] eqn:Hs; try constructor.
  rewrite sleeps_bind.
  replace (sleeps (events ((if negb q
                            then print (status_line ld (value s0)) ""
                            else ret tt) (final (job_status w)))))
    with (@nil Z) by (destruct q; simpl; [reflexivity|now rewrite sleeps_print]).
  simpl.
  match goal with |- context [outcome ?r] =>
    destruct (outcome r) as [[]|e|] eqn:Hp end; try constructor.
  rewrite sleeps_bind.
  match goal with |- context [while_loop fuel true q ld ?st ?w1] =>
    destruct (while_loop_keeps_supplied_interval fuel q ld st w1) as [Hin|Hall];
    [exfalso; apply Hno|]
  end.
  - eapply events_bind_incl_r; [exact Hs|].
    eapply events_bind_incl_r; [exact Hp|].
    now apply events_bind_incl.
  - apply Forall_app. split; [exact Hall|].
    destruct (outcome (while_loop _ _ _ _ _ _)); try constructor.
    destruct q; simpl; [constructor|rewrite sleeps_print; constructor].
Qed.
End SuppliedInterval.

(** ** Concrete runs *)

Lemma StringIO_accepts_writes : accepts_writes StringIO.
Proof. intros s f. reflexivity. Qed.

(** C1: [job_monitor(job, interval=7)] on a job that is QUEUED with a
    null queue position sleeps 7 seconds once and 2 seconds from then
    on: line 51 sets the interval to 2 without looking at
    [_interval_set], and nothing sets it back, not even when the job
    later reports position 4. *)
Theorem supplied_interval_is_overridden_on_null_position :
  sleeps (events
    (job_monitor 10 (Some 7%Z) false carriage_return
       (start (scripted true
                 [(JobStatus.QUEUED, None); (JobStatus.QUEUED, None);
                  (JobStatus.QUEUED, Some 4%Z); (JobStatus.DONE, None)])
              {| getvalue := "" |})))
  = [7; 2; 2]%Z.
Proof. vm_compute. reflexivity. Qed.

(** C3, counterexample: for a queued job whose position is null the
    line written shows [(None)], not [(unknown)]. *)
Lemma null_position_is_not_shown_as_unknown :
  let w := start (scripted true [(JobStatus.QUEUED, None)]) {| getvalue := "" |} in
  let st := {| cur_status := JobStatus.QUEUED; interval := 5;
               msg_len := 13; prev_msg := "job is queued" |} in
  writes (events (loop_body false false carriage_return st w))
    = [status_line carriage_return "job is queued (None)"] /\
  writes (events (loop_body false false carriage_return st w))
    <> [status_line carriage_return "job is queued (unknown)"].
Proof. split; [vm_compute; reflexivity|vm_compute; discriminate]. Qed.

(** C3, witness. *)
Lemma null_position_is_shown_as_None_witness :
  let w := start (scripted true [(JobStatus.QUEUED, None)]) {| getvalue := "" |} in
  let st := {| cur_status := JobStatus.QUEUED; interval := 5;
               msg_len := 13; prev_msg := "job is queued" |} in
  outcome (poll 5 false w) = Ok (JobStatus.QUEUED, "job is queued (None)", 2%Z).
Proof.
  intros w st.
  set (j := {| with_queue_position := true; pending := [];
               position := (None : option Z) |}).
  exact (proj1 (null_position_is_shown_as_None false false carriage_return
                  st w JobStatus.QUEUED j j j
                  eq_refl eq_refl eq_refl eq_refl eq_refl)).
Defined.

(** C4, witness: a job queued at position 3 makes the next sleep last 3
    seconds. *)
Lemma queued_interval_follows_position_witness :
  let w := start (scripted true [(JobStatus.QUEUED, Some 3%Z)])
             {| getvalue := "" |} in
  let st := {| cur_status := JobStatus.QUEUED; interval := 5;
               msg_len := 13; prev_msg := "job is queued" |} in
  exists st',
    outcome (loop_body false false carriage_return st w) = Ok st' /\
    interval st' = 3%Z.
Proof.
  intros w st.
  set (j := {| with_queue_position := true; pending := [];
               position := Some 3%Z |}).
  assert (Hi : (0 <= interval st <= sleep_max)%Z) by (unfold sleep_max; simpl; lia).
  assert (Hs : status (job w) = (Returns JobStatus.QUEUED, j)) by reflexivity.
  assert (Hq : queue_position j = (Returns (Some 3%Z), j)) by reflexivity.
  destruct (queued_interval_follows_position false carriage_return st w
              JobStatus.QUEUED (Some 3%Z) j j j j
              StringIO_accepts_writes Hi Hs eq_refl eq_refl Hq Hq (fun _ => Hq))
    as (st' & Ho & _ & Hge & _).
  exists st'. split; [exact Ho|]. apply Hge. lia.
Defined.


(** C6, witness: after the longer message [job is queued (12)] the
    shorter [job is queued (9)] is written with one space of padding. *)
Lemma printed_length_never_shrinks_witness :
  let w := start (scripted true [(JobStatus.QUEUED, Some 9%Z)])
             {| getvalue := "" |} in
  let st := {| cur_status := JobStatus.QUEUED; interval := 12;
               msg_len := 18; prev_msg := "job is queued (12)" |} in
  let r := loop_body false false carriage_return st w in
  writes (events r) = [status_line carriage_return "job is queued (9) "] /\
  forall st', outcome r = Ok st' -> msg_len st' = 18.
Proof.
  intros w st r.
  assert (Hi : (0 <= interval st <= sleep_max)%Z) by (unfold sleep_max; simpl; lia).
  assert (Hp : outcome (poll (interval st) false w)
               = Ok (JobStatus.QUEUED, "job is queued (9)", 9%Z)) by reflexivity.
  destruct (proj2 (printed_length_never_shrinks (J := Scripted) (F := StringIO))
              false false carriage_return st w
              JobStatus.QUEUED "job is queued (9)" 9%Z Hi Hp) as [[Hw|Hw] Hl].
  - vm_compute in Hw. discriminate Hw.
  - split; [exact Hw|exact Hl].
Defined.

(** C8, witness: the output file is closed; the first write raises and
    [job_monitor] ends with that exception, having called nothing
    else. *)
Lemma collaborator_errors_propagate_witness :
  let r := job_monitor 5 None false carriage_return
             (start (scripted true [(JobStatus.QUEUED, None)]) closed_file) in
  events r =
    [EvStatus (Returns JobStatus.QUEUED);
     EvWrite (status_line carriage_return "job is queued")
       (Raises (ValueError "I/O operation on closed file."))] /\
  outcome r = Raised (ValueError "I/O operation on closed file.").
Proof.
  intros r. split; [reflexivity|].
  exact (proj2 (collaborator_errors_propagate 5 None false carriage_return
                  (start (scripted true [(JobStatus.QUEUED, None)]) closed_file)
                  [EvStatus (Returns JobStatus.QUEUED)] []
                  (EvWrite (status_line carriage_return "job is queued")
                     (Raises (ValueError "I/O operation on closed file.")))
                  (ValueError "I/O operation on closed file.")
                  eq_refl eq_refl)).
Defined.

(** C9, witness: a job that answers 1, then 4, then 7 is shown at
    position 1 and polled again after 7 seconds. *)
Lemma queue_position_is_asked_two_or_three_times_witness :
  let w := start {| status_answers := [Returns JobStatus.QUEUED];
                    position_answers := [Returns (Some 1%Z); Returns (Some 4%Z);
                                         Returns (Some 7%Z)] |}
                 {| getvalue := "" |} in
  queue_position_calls (events (poll 5 false w)) = 3 /\
  outcome (poll 5 false w) = Ok (JobStatus.QUEUED, "job is queued (1)", 7%Z).
Proof.
  intros w.
  set (j1 := {| status_answers := [];
                position_answers := [Returns (Some 1%Z); Returns (Some 4%Z);
                                     Returns (Some 7%Z)] |}).
  set (j2 := {| status_answers := [];
                position_answers := [Returns (Some 4%Z); Returns (Some 7%Z)] |}).
  set (j3 := {| status_answers := [];
                position_answers := [Returns (Some 7%Z)] |}).
  set (j4 := {| status_answers := []; position_answers := [] |}).
  assert (Hs : status (job w) = (Returns JobStatus.QUEUED, j1)) by reflexivity.
  assert (Hq1 : queue_position j1 = (Returns (Some 1%Z), j2)) by reflexivity.
  assert (Hq2 : queue_position j2 = (Returns (Some 4%Z), j3)) by reflexivity.
  assert (Hq3 : queue_position j3 = (Returns (Some 7%Z), j4)) by reflexivity.
  destruct (queue_position_is_asked_two_or_three_times 5 false w
              JobStatus.QUEUED (Some 1%Z) (Some 4%Z) (Returns (Some 7%Z))
              j1 j2 j3 j4 Hs eq_refl eq_refl Hq1 Hq2 Hq3)
    as (_ & Hiff & _ & _ & H3).
  split.
  - apply Hiff. split; [discriminate|reflexivity].
  - assert (Hne : Some 4%Z <> None) by discriminate.
    exact (H3 Hne eq_refl 7%Z eq_refl).
Defined.

(** A whole session with the job of the witness above: the line shows
    position 1 while the next sleep lasts 7 seconds. *)
Example shown_position_differs_from_slept_position :
  let r := job_monitor 5 None false carriage_return
             (start {| status_answers := [Returns JobStatus.QUEUED;
                                          Returns JobStatus.QUEUED;
                                          Returns JobStatus.DONE];
                       position_answers := [Returns (Some 1%Z); Returns (Some 4%Z);
                                            Returns (Some 7%Z)] |}
                    {| getvalue := "" |}) in
  sleeps (events r) = [5; 7]%Z /\
  writes (events r) =
    [status_line carriage_return "job is queued";
     status_line carriage_return "job is queued (1)";
     status_line carriage_return "job has successfully run";
     newline].
Proof. split; vm_compute; reflexivity. Qed.

(** C10, witness: the scenario job with an in-memory output. *)
Lemma quiet_does_not_change_polling_witness :
  let w := start (scenario "job is queued" "job is actively running"
                    "job has successfully run") {| getvalue := "" |} in
  polling (events (job_monitor 5 None true carriage_return w))
    = polling (events (job_monitor 5 None false carriage_return w)).
Proof.
  intros w.
  exact (proj1 (quiet_does_not_change_polling 5 None carriage_return w eq_refl)).
Defined.

(** C10, counterexample: to a closed file the talkative run stops at
    its first line, where the quiet one sleeps and asks for the status
    again. *)
Lemma quiet_changes_polling_on_closed_file :
  let w := start (scripted true [(JobStatus.QUEUED, None); (JobStatus.DONE, None)])
             closed_file in
  polling (events (job_monitor 5 None true carriage_return w))
    = [EvStatus (Returns JobStatus.QUEUED); EvSleep 5;
       EvStatus (Returns JobStatus.DONE)] /\
  polling (events (job_monitor 5 None false carriage_return w))
    = [EvStatus (Returns JobStatus.QUEUED)] /\
  polling (events (job_monitor 5 None true carriage_return w))
    <> polling (events (job_monitor 5 None false carriage_return w)).
Proof.
  split; [reflexivity|]. split; [reflexivity|].
  vm_compute. discriminate.
Qed.

(** * Further properties of the monitor *)

(** ** Which calls the monitor makes *)

Lemma queue_position_calls_app l1 l2 :
  queue_position_calls (l1 ++ l2)
  = queue_position_calls l1 + queue_position_calls l2.
Proof. unfold queue_position_calls. now rewrite filter_app, length_app. Qed.

Lemma fetched_app l1 l2 : fetched (l1 ++ l2) = fetched l1 ++ fetched l2.
Proof. apply flat_map_app. Qed.

Lemma queued_fetches_app l1 l2 :
  queued_fetches (l1 ++ l2) = queued_fetches l1 + queued_fetches l2.
Proof. unfold queued_fetches. now rewrite fetched_app, filter_app, length_app. Qed.


Section Calls.
Context {J F : Type} `{JobJ : Job J} `{OutF : Output F}.

(** A property of event lists kept by concatenation holds of a whole
    session when it holds of the status call, of a fetch, of a sleep and
    of a print. *)
Lemma session_events (P : list Event -> Prop) :
  P [] ->
  (forall l1 l2, P l1 -> P l2 -> P (l1 ++ l2)) ->
  (forall w : World J F, P (events (job_status w))) ->
  (forall i set (w : World J F), P (events (poll i set w))) ->
  (forall secs, P [EvSleep secs]) ->
  (forall t e (w : World J F), P (events (print t e w))) ->
  forall fuel interval quiet ld (w : World J F),
    P (events (job_monitor fuel interval quiet ld w)).
Proof.
  intros Hnil Happ Hst Hpoll Hsleep Hprint.
  assert (Hbody : forall set q ld st (w : World J F),
            P (events (loop_body set q ld st w))).
  { intros set q ld st. unfold loop_body.
    apply bind_events; [exact Hnil|exact Happ|intros w; apply Hsleep|].
    intros _.
    apply bind_events; [exact Hnil|exact Happ|apply Hpoll|].
    intros [[s' msg] i] w.
    destruct (adjust msg (msg_len st)) as [msg' len'].
    destruct (negb _ && negb q); [|exact Hnil].
    revert w.
    apply bind_events; [exact Hnil|exact Happ|apply Hprint|].
    intros; exact Hnil. }
  assert (Hloop : forall fuel set q ld st (w : World J F),
            P (events (while_loop fuel set q ld st w))).
  { induction fuel as [|fuel IH]; intros set q ld st w; simpl;
      destruct (negb (in_terminal (name (cur_status st)))); try exact Hnil.
    revert w.
    apply bind_events; [exact Hnil|exact Happ|apply Hbody|].
    intros st' w. apply IH. }
  assert (Htc : forall fuel i set q ld (w : World J F),
            P (events (_text_checker fuel i set q ld w))).
  { intros fuel i set q ld. unfold _text_checker.
    apply bind_events; [exact Hnil|exact Happ|apply Hst|]. intros st.
    apply bind_events; [exact Hnil|exact Happ| |].
    { intros w. destruct (negb q); [apply Hprint|exact Hnil]. }
    intros _.
    apply bind_events; [exact Hnil|exact Happ|apply Hloop|].
    intros _ w. destruct (negb q); [apply Hprint|exact Hnil]. }
  intros fuel [i|] q ld w; apply Htc.
Qed.

Lemma queue_position_calls_print t e (w : World J F) :
  queue_position_calls (events (print t e w)) = 0.
Proof. unfold print. destruct (write _ _). reflexivity. Qed.

Lemma queue_position_calls_job_status (w : World J F) :
  queue_position_calls (events (job_status w)) = 0.
Proof. unfold job_status. destruct (status (job w)). reflexivity. Qed.

(** X1: on a job that has no [queue_position] attribute the accessor is
    never called, whatever statuses the job reports and however long the
    session lasts. *)
Theorem no_queue_position_call_without_attribute :
  forall (fuel : nat) (interval : option Z) (quiet : bool)
         (line_discipline : string) (w : World J F),
    (forall j : J, has_queue_position j = false) ->
    queue_position_calls
      (events (job_monitor fuel interval quiet line_discipline w)) = 0.
Proof.
  intros fuel interval q ld w Hhas.
  apply (session_events (fun evs => queue_position_calls evs = 0)); auto.
  - intros l1 l2 H1 H2. rewrite queue_position_calls_app, H1, H2. reflexivity.
  - apply queue_position_calls_job_status.
  - intros i set w0. unfold poll, bind, job_status, job_hasattr_queue_position.
    destruct (status (job w0)) as [[s|e] j1]; simpl; [|reflexivity].
    destruct (name s =? "QUEUED")%string; simpl.
    + rewrite Hhas. simpl. destruct set; reflexivity.
    + destruct set; reflexivity.
  - apply queue_position_calls_print.
Qed.

(** X2: a session calls [queue_position()] at most three times for each
    QUEUED status it fetches. *)
Theorem queue_position_calls_bounded_by_queued_fetches :
  forall (fuel : nat) (interval : option Z) (quiet : bool)
         (line_discipline : string) (w : World J F),
    queue_position_calls
      (events (job_monitor fuel interval quiet line_discipline w))
    <= 3 * queued_fetches
             (events (job_monitor fuel interval quiet line_discipline w)).
Proof.
  intros fuel interval q ld w.
  apply (session_events
           (fun evs => queue_position_calls evs <= 3 * queued_fetches evs)).
  - unfold queue_position_calls, queued_fetches. simpl. lia.
  - intros l1 l2 H1 H2.
    rewrite queue_position_calls_app, queued_fetches_app. lia.
  - intros w0. rewrite queue_position_calls_job_status. lia.
  - intros i set w0.
    unfold poll, bind, job_status, job_hasattr_queue_position,
      job_queue_position, queue_position_calls, queued_fetches.
    destruct (status (job w0)) as [[s|e] j1]; simpl; [|lia].
    destruct (name s =? "QUEUED")%string eqn:Hq; simpl;
      [destruct (has_queue_position j1); simpl|];
      try (destruct set; simpl; lia).
    destruct (queue_position j1) as [[p1|e] j2]; simpl; [|lia].
    destruct (queue_position j2) as [[[z2|]|e] j3]; simpl; try lia.
    destruct set; simpl; [lia|].
    destruct (queue_position j3) as [[[z3|]|e] j4]; simpl; lia.
  - intros secs. unfold queue_position_calls. simpl. lia.
  - intros t e w0. rewrite queue_position_calls_print. lia.
Qed.
End Calls.

(** ** How long the monitor sleeps *)

Section Sleeps.
Context {J F : Type} `{JobJ : Job J} `{OutF : Output F}.

(** Left to itself, a fetch chooses an interval of at least 2. *)
Lemma poll_auto_interval i (w : World J F) s msg i' :
  outcome (poll i false w) = Ok (s, msg, i') -> (2 <= i')%Z.
Proof.
  unfold poll, bind, job_status, job_hasattr_queue_position,
    job_queue_position.
  destruct (status (job w)) as [[s0|e] j1]; simpl; [|discriminate].
  destruct (name s0 =? "QUEUED")%string; simpl;
    [destruct (has_queue_position j1); simpl|].
  - destruct (queue_position j1) as [[p1|e] j2]; simpl; [|discriminate].
    destruct (queue_position j2) as [[[z2|]|e] j3]; simpl; try discriminate.
    + destruct (queue_position j3) as [[[z3|]|e] j4]; simpl; try discriminate.
      intros H; injection H as _ _ <-. lia.
    + intros H; injection H as _ _ <-. lia.
  - intros H; injection H as _ _ <-. lia.
  - intros H; injection H as _ _ <-. lia.
Qed.

(** With the interval set by the user, a fetch leaves it alone or makes
    it 2. *)
Lemma poll_fixed_interval i (w : World J F) s msg i' :
  outcome (poll i true w) = Ok (s, msg, i') -> i' = i \/ i' = 2%Z.
Proof.
  unfold poll, bind, job_status, job_hasattr_queue_position,
    job_queue_position.
  destruct (status (job w)) as [[s0|e] j1]; simpl; [|discriminate].
  destruct (name s0 =? "QUEUED")%string; simpl;
    [destruct (has_queue_position j1); simpl|].
  - destruct (queue_position j1) as [[p1|e] j2]; simpl; [|discriminate].
    destruct (queue_position j2) as [[[z2|]|e] j3]; simpl;
      try discriminate; intros H; injection H as _ _ <-; auto.
  - intros H; injection H as _ _ <-; auto.
  - intros H; injection H as _ _ <-; auto.
Qed.

Lemma while_loop_auto_sleeps fuel q ld st (w : World J F) :
  (2 <= interval st)%Z ->
  Forall (fun secs => (2 <= secs)%Z)
    (sleeps (events (while_loop fuel false q ld st w))).
Proof.
  revert st w. induction fuel as [|fuel IH]; intros st w Hi; simpl;
    destruct (negb (in_terminal (name (cur_status st)))); try constructor.
  rewrite sleeps_bind, sleeps_loop_body.
  constructor; [exact Hi|].
  destruct (outcome (loop_body false q ld st w)) as [st'|e|] eqn:Ho;
    try constructor.
  apply IH.
  destruct (loop_body_ok_inv _ _ _ _ _ _ Ho) as (raw & Hp & _).
  exact (poll_auto_interval _ _ _ _ _ Hp).
Qed.

Lemma while_loop_first_sleep fuel set q ld st (w : World J F) :
  sleeps (events (while_loop fuel set q ld st w)) = [] \/
  exists rest,
    sleeps (events (while_loop fuel set q ld st w)) = interval st :: rest.
Proof.
  destruct fuel as [|fuel]; simpl;
    destruct (negb (in_terminal (name (cur_status st)))); auto.
  right. rewrite sleeps_bind, sleeps_loop_body. simpl. eauto.
Qed.

Lemma sleeps_text_checker fuel i set q ld (w : World J F) :
  sleeps (events (_text_checker fuel i set q ld w)) = [] \/
  exists s0 w1,
    sleeps (events (_text_checker fuel i set q ld w)) =
    sleeps (events (while_loop fuel set q ld
                      {| cur_status := s0; interval := i;
                         msg_len := String.length (value s0);
                         prev_msg := value s0 |} w1)).
Proof.
  unfold _text_checker. rewrite sleeps_bind.
  replace (sleeps (events (job_status w))) with (@nil Z)
    by (unfold job_status; destruct (status (job w)); reflexivity).
  simpl.
  destruct (outcome (job_status w)) as [s0|e|]; auto.
  rewrite sleeps_bind.
  replace (sleeps (events ((if negb q
                            then print (status_line ld (value s0)) ""
                            else ret tt) (final (job_status w)))))
    with (@nil Z) by (destruct q; simpl; [reflexivity|now rewrite sleeps_print]).
  simpl.
  match goal with |- context [outcome ?r] =>
    destruct (outcome r) as [[]|e|] end; auto.
  right. rewrite sleeps_bind.
  match goal with |- context [while_loop fuel set q ld ?st ?w1] =>
    exists s0, w1; destruct (outcome (while_loop fuel set q ld st w1))
  end; rewrite ?app_nil_r; try reflexivity.
  destruct q; simpl; rewrite ?sleeps_print, ?app_nil_r; reflexivity.
Qed.

(** X3: with no interval supplied the first sleep, if there is one,
    lasts 5 seconds and every later one at least 2 seconds, whatever the
    job reports. *)
Theorem default_sleeps_are_5_then_at_least_2 :
  forall (fuel : nat) (quiet : bool) (line_discipline : string)
         (w : World J F),
    let secs := sleeps (events (job_monitor fuel None quiet line_discipline w)) in
    secs = [] \/
    exists rest, secs = 5%Z :: rest /\ Forall (fun s => (2 <= s)%Z) rest.
Proof.
  intros fuel q ld w secs. subst secs. simpl.
  destruct (sleeps_text_checker fuel 5 false q ld w) as [H|(s0 & w1 & H)];
    [now left|].
  rewrite H.
  match goal with |- context [while_loop fuel false q ld ?st w1] =>
    destruct (while_loop_first_sleep fuel false q ld st w1) as [H0|(rest & H0)];
    [now left|right];
    pose proof (while_loop_auto_sleeps fuel q ld st w1) as Hall
  end.
  exists rest. split; [exact H0|].
  rewrite H0 in Hall. simpl in Hall.
  assert (H5 : (2 <= 5)%Z) by lia.
  specialize (Hall H5). now inversion Hall.
Qed.

Lemma while_loop_fixed_sleeps fuel q ld st (w : World J F) :
  exists k m,
    sleeps (events (while_loop fuel true q ld st w))
    = repeat (interval st) k ++ repeat 2%Z m.
Proof.
  revert st w. induction fuel as [|fuel IH]; intros st w; simpl;
    destruct (negb (in_terminal (name (cur_status st))));
    try (exists 0, 0; reflexivity).
  rewrite sleeps_bind, sleeps_loop_body.
  destruct (outcome (loop_body true q ld st w)) as [st'|e|] eqn:Ho;
    try (exists 1, 0; reflexivity).
  destruct (loop_body_ok_inv _ _ _ _ _ _ Ho) as (raw & Hp & _).
  destruct (IH st' (final (loop_body true q ld st w))) as (k & m & Hs).
  rewrite Hs.
  destruct (poll_fixed_interval _ _ _ _ _ Hp) as [Hi|Hi]; rewrite Hi.
  - exists (S k), m. reflexivity.
  - exists 1, (k + m). simpl. now rewrite repeat_app.
Qed.

(** X4: with an interval supplied, the sleeps of a session are a run of
    sleeps of the supplied length followed by a run of sleeps of 2
    seconds (either run may be empty): the interval is never anything
    but the supplied value or 2, and once it is 2 it stays 2. *)
Theorem supplied_sleeps_are_supplied_then_2 :
  forall (fuel : nat) (i : Z) (quiet : bool) (line_discipline : string)
         (w : World J F),
    exists k m,
      sleeps (events (job_monitor fuel (Some i) quiet line_discipline w))
      = repeat i k ++ repeat 2%Z m.
Proof.
  intros fuel i q ld w. simpl.
  destruct (sleeps_text_checker fuel i true q ld w) as [H|(s0 & w1 & H)].
  - exists 0, 0. exact H.
  - rewrite H.
    match goal with |- context [while_loop fuel true q ld ?st w1] =>
      exact (while_loop_fixed_sleeps fuel q ld st w1)
    end.
Qed.
End Sleeps.

(** ** Edge cases *)

Section Edges.
Context {J F : Type} `{JobJ : Job J} `{OutF : Output F}.

Lemma polling_print t e (w : World J F) : polling (events (print t e w)) = [].
Proof. unfold print. destruct (write _ _). reflexivity. Qed.

Lemma print_run t e (w : World J F) :
  exists r o',
    write (t ++ e)%string (output w) = (r, o') /\
    print t e w =
      {| outcome := of_res r; final := {| job := job w; output := o' |};
         events := [EvWrite (t ++ e)%string r] |}.
Proof.
  unfold print. destruct (write _ _) as [r o']. eauto.
Qed.

Lemma text_checker_on_finished_job fuel i set q ld (w : World J F) s j1 :
  status (job w) = (Returns s, j1) ->
  in_terminal (name s) = true ->
  let r := _text_checker fuel i set q ld w in
  polling (events r) = [EvStatus (Returns s)] /\
  job (final r) = j1 /\
  (accepts_writes F ->
   outcome r = Ok tt /\
   writes (events r) =
     if q then [] else [status_line ld (value s); newline]).
Proof.
  intros Hs Hterm. unfold _text_checker.
  assert (Hst : job_status w =
            {| outcome := Ok s; final := at_job j1 w;
               events := [EvStatus (Returns s)] |}).
  { unfold job_status. rewrite Hs. reflexivity. }
  rewrite (bind_run _ _ _ _ _ _ _ Hst eq_refl). cbv beta zeta.
  destruct q.
  - change (negb true) with false. cbv iota.
    rewrite (bind_run (ret tt) _ _ (at_job j1 w) tt [] _ eq_refl eq_refl).
    rewrite while_loop_stop by exact Hterm.
    rewrite (bind_run (ret _) _ _ (at_job j1 w) _ [] _ eq_refl eq_refl).
    simpl. auto.
  - change (negb false) with true. cbv iota.
    destruct (print_run (status_line ld (value s)) "" (at_job j1 w))
      as (r1 & o1 & Ew1 & Ep1).
    destruct r1 as [[]|e1].
    + rewrite (bind_run _ _ _ _ _ _ _ Ep1 eq_refl).
      rewrite while_loop_stop by exact Hterm.
      rewrite (bind_run (ret _) _ _ _ _ [] _ eq_refl eq_refl).
      match goal with |- context [print "" newline ?w2] =>
        destruct (print_run "" newline w2) as (r2 & o2 & Ew2 & Ep2)
      end.
      rewrite Ep2. simpl.
      split; [reflexivity|]. split; [reflexivity|]. intros Hacc.
      rewrite append_empty_r. split; [|reflexivity].
      pose proof (Hacc newline o1) as Ha. simpl in Ew2.
      rewrite Ew2 in Ha. simpl in Ha. subst r2. reflexivity.
    + rewrite bind_unfold, Ep1. simpl.
      split; [reflexivity|]. split; [reflexivity|]. intros Hacc.
      specialize (Hacc (status_line ld (value s) ++ "")%string
                    (output (at_job j1 w))).
      rewrite Ew1 in Hacc. discriminate Hacc.
Qed.

(** X6: when the first status fetched is already terminal, the monitor
    asks for the status once and never sleeps or asks again, whatever
    the interval; if its writes return it returns normally, having
    written the status line and the newline, or nothing when quiet. *)
Theorem finished_job_is_asked_once :
  forall (fuel : nat) (interval : option Z) (quiet : bool)
         (line_discipline : string) (w : World J F) (s : Status) (j1 : J),
    status (job w) = (Returns s, j1) ->
    in_terminal (name s) = true ->
    let r := job_monitor fuel interval quiet line_discipline w in
    polling (events r) = [EvStatus (Returns s)] /\
    job (final r) = j1 /\
    (accepts_writes F ->
     outcome r = Ok tt /\
     writes (events r) =
       if quiet then [] else [status_line line_discipline (value s); newline]).
Proof.
  intros fuel [i|] q ld w s j1 Hs Hterm; simpl;
    now apply text_checker_on_finished_job.
Qed.

(** X7: with no interval supplied, an iteration whose sleep returns
    and in which [queue_position()] returns a position on its second
    call and null on its third ends in the [TypeError] of
    [max(None, 2)]; the iteration writes nothing. *)
Theorem vanishing_position_raises_TypeError :
  forall (quiet : bool) (line_discipline : string) (st : Locals)
         (w : World J F) (s : Status) (p1 : option Z) (z2 : Z)
         (j1 j2 j3 j4 : J),
    (0 <= interval st <= sleep_max)%Z ->
    status (job w) = (Returns s, j1) ->
    name s = "QUEUED" ->
    has_queue_position j1 = true ->
    queue_position j1 = (Returns p1, j2) ->
    queue_position j2 = (Returns (Some z2), j3) ->
    queue_position j3 = (Returns None, j4) ->
    let r := loop_body false quiet line_discipline st w in
    outcome r =
      Raised (TypeError
        "'>' not supported between instances of 'int' and 'NoneType'") /\
    writes (events r) = [] /\
    queue_position_calls (events r) = 3.
Proof.
  intros q ld st w s p1 z2 j1 j2 j3 j4 Hi Hs Hn Hh Hq1 Hq2 Hq3 r.
  subst r. unfold loop_body.
  assert (Hsleep : time_sleep (interval st) w =
            {| outcome := Ok tt; final := w;
               events := [EvSleep (interval st)] |}).
  { unfold time_sleep. now rewrite (sleep_outcome_returns _ Hi). }
  rewrite (bind_run _ _ _ _ _ _ _ Hsleep eq_refl).
  rewrite bind_unfold.
  rewrite (poll_queued_auto (interval st) w s j1 p1 j2 z2 j3 (Returns None) j4
             Hs Hn Hh Hq1 Hq2 Hq3).
  simpl. auto.
Qed.
End Edges.

(** ** Status queries and sleeps *)

Section Queries.
Context {J F : Type} `{JobJ : Job J} `{OutF : Output F}.


Lemma fetched_bind {A B} (m : M (World J F) A) (f : A -> M (World J F) B) w :
  fetched (events (bind m f w)) =
  fetched (events (m w)) ++
  match outcome (m w) with
  | Ok a => fetched (events (f a (final (m w))))
  | _ => []
  end.
Proof.
  rewrite bind_unfold. destruct (outcome (m w)); simpl;
    rewrite ?fetched_app, ?app_nil_r; reflexivity.
Qed.


Lemma fetched_print t e (w : World J F) : fetched (events (print t e w)) = [].
Proof. unfold print. destruct (write _ _). reflexivity. Qed.


(** A fetch that returns has fetched the status it hands on. *)
Lemma fetched_poll i set (w : World J F) s msg i' :
  outcome (poll i set w) = Ok (s, msg, i') ->
  fetched (events (poll i set w)) = [s].
Proof.
  unfold poll, bind, job_status, job_hasattr_queue_position,
    job_queue_position, fetched.
  destruct (status (job w)) as [[s0|e] j1]; simpl; [|discriminate].
  destruct (name s0 =? "QUEUED")%string; simpl;
    [destruct (has_queue_position j1); simpl|];
    try (destruct set; simpl; intros H; injection H as <- _ _; reflexivity).
  destruct (queue_position j1) as [[p1|e] j2]; simpl; [|discriminate].
  destruct (queue_position j2) as [[[z2|]|e] j3]; simpl; try discriminate.
  - destruct set; simpl;
      [intros H; injection H as <- _ _; reflexivity|].
    destruct (queue_position j3) as [[[z3|]|e] j4]; simpl; try discriminate.
    intros H; injection H as <- _ _; reflexivity.
  - intros H; injection H as <- _ _; reflexivity.
Qed.




Lemma fetched_loop_body set q ld st (w : World J F) st' :
  outcome (loop_body set q ld st w) = Ok st' ->
  fetched (events (loop_body set q ld st w)) = [cur_status st'].
Proof.
  intros Ho. destruct (loop_body_ok_inv _ _ _ _ _ _ Ho) as (raw & Hp & _).
  pose proof (fetched_poll _ _ _ _ _ _ Hp) as Hf.
  unfold loop_body in *. rewrite fetched_bind. simpl.
  rewrite bind_unfold in Ho. simpl in Ho.
  destruct (sleep_outcome (interval st)) as [[]| |]; try discriminate.
  simpl in *.
  rewrite fetched_bind, Hf, Hp. simpl.
  destruct (adjust raw (msg_len st)) as [msg' len'].
  destruct (negb _ && negb q); [|reflexivity].
  rewrite fetched_bind, fetched_print. simpl.
  destruct (outcome (print _ _ _)); reflexivity.
Qed.


(** The pieces of a session: the first status call, the first line, the
    loop and the final newline, as far as the session gets. *)
Lemma text_checker_cases fuel i set q ld (w : World J F) :
  let r := _text_checker fuel i set q ld w in
  let r0 := job_status w in
  match outcome r0 with
  | Ok s0 =>
      let p := (if negb q then print (status_line ld (value s0)) ""
                else ret tt) (final r0) in
      match outcome p with
      | Ok _ =>
          let l := while_loop fuel set q ld
                     {| cur_status := s0; interval := i;
                        msg_len := String.length (value s0);
                        prev_msg := value s0 |} (final p) in
          match outcome l with
          | Ok _ =>
              let n := (if negb q then print "" newline else ret tt) (final l) in
              events r = events r0 ++ events p ++ events l ++ events n /\
              outcome r = outcome n
          | _ =>
              events r = events r0 ++ events p ++ events l /\
              forall u, outcome r <> Ok u
          end
      | _ =>
          events r = events r0 ++ events p /\ forall u, outcome r <> Ok u
      end
  | _ => events r = events r0 /\ forall u, outcome r <> Ok u
  end.
Proof.
  cbv zeta. unfold _text_checker. rewrite bind_unfold.
  destruct (outcome (job_status w)) as [s0|e|];
    try (simpl; split; [reflexivity|discriminate]).
  remember ((if negb q then print (status_line ld (value s0)) "" else ret tt)
              (final (job_status w))) as p eqn:Ep.
  cbv beta zeta. rewrite bind_unfold. rewrite <- Ep.
  destruct (outcome p) as [[]|e|];
    try (simpl; split; [reflexivity|discriminate]).
  remember (while_loop fuel set q ld
              {| cur_status := s0; interval := i;
                 msg_len := String.length (value s0);
                 prev_msg := value s0 |} (final p)) as l eqn:El.
  rewrite bind_unfold. rewrite <- El.
  destruct (outcome l) as [st'|e|]; simpl;
    (split; [reflexivity|try discriminate]). reflexivity.
Qed.


End Queries.

(** ** What a session that returns has seen *)

Section Returning.
Context {J F : Type} `{JobJ : Job J} `{OutF : Output F}.

Lemma while_loop_fetched fuel set q ld st (w : World J F) st' :
  outcome (while_loop fuel set q ld st w) = Ok st' ->
  in_terminal (name (cur_status st')) = true /\
  exists pre,
    cur_status st :: fetched (events (while_loop fuel set q ld st w))
      = pre ++ [cur_status st'] /\
    Forall (fun s => in_terminal (name s) = false) pre.
Proof.
  revert st w. induction fuel as [|fuel IH]; intros st w; simpl;
    destruct (in_terminal (name (cur_status st))) eqn:Hcur; simpl;
    try discriminate;
    try (intros H; injection H as <-; split; [exact Hcur|];
         exists []; split; [reflexivity|constructor]).
  intros H. apply outcome_bind_ok in H. destruct H as (st1 & Ho & H).
  destruct (IH _ _ H) as (Hterm & pre & Hpre & Hall).
  split; [exact Hterm|].
  exists (cur_status st :: pre). split.
  - rewrite fetched_bind, Ho, (fetched_loop_body _ _ _ _ _ _ Ho). simpl.
    simpl in Hpre. rewrite Hpre. reflexivity.
  - constructor; [exact Hcur|exact Hall].
Qed.

(** X9: a session that returns has fetched exactly one terminal status
    (DONE, CANCELLED or ERROR), and that one last: the monitor neither
    returns before the job has ended nor asks again once it has. *)
Theorem returns_at_first_terminal_status :
  forall (fuel : nat) (interval : option Z) (quiet : bool)
         (line_discipline : string) (w : World J F),
    let r := job_monitor fuel interval quiet line_discipline w in
    outcome r = Ok tt ->
    exists pre last,
      fetched (events r) = pre ++ [last] /\
      in_terminal (name last) = true /\
      Forall (fun s => in_terminal (name s) = false) pre.
Proof.
  intros fuel interval q ld w r Hok.
  assert (H : exists i set, r = _text_checker fuel i set q ld w)
    by (destruct interval; subst r; simpl; eauto).
  destruct H as (i & set & Er).
  pose proof (text_checker_cases fuel i set q ld w) as H.
  cbv zeta in H. rewrite <- Er in H.
  assert (Hf0 : forall s0, outcome (job_status w) = Ok s0 ->
                  fetched (events (job_status w)) = [s0]).
  { unfold job_status. destruct (status (job w)) as [[s|e] j]; simpl;
      intros s0 E; [injection E as <-; reflexivity|discriminate]. }
  assert (Hfp : forall t e (w1 : World J F),
            fetched (events ((if negb q then print t e else ret tt) w1)) = [])
    by (intros t e w1; destruct q; simpl; [reflexivity|apply fetched_print]).
  destruct (outcome (job_status w)) as [s0|e|] eqn:Hs;
    try (destruct H as [_ Hno]; elim (Hno _ Hok)).
  destruct (outcome ((if negb q then print (status_line ld (value s0)) ""
                      else ret tt) (final (job_status w)))) as [[]|e|];
    try (destruct H as [_ Hno]; elim (Hno _ Hok)).
  match type of H with context [while_loop fuel set q ld ?st ?w2] =>
    destruct (outcome (while_loop fuel set q ld st w2)) as [st'|e|] eqn:Hl;
    try (destruct H as [_ Hno]; elim (Hno _ Hok));
    destruct (while_loop_fetched fuel set q ld st w2 st' Hl)
      as (Hterm & pre & Hpre & Hall)
  end.
  destruct H as [Hev _]. simpl in Hpre.
  exists pre, (cur_status st'). split; [|split; [exact Hterm|exact Hall]].
  rewrite Hev, !fetched_app, (Hf0 _ eq_refl), !Hfp, app_nil_r. simpl.
  exact Hpre.
Qed.
End Returning.

(** ** No line is written twice in a row *)

Lemma changing_sorted ld prev msgs :
  changing prev msgs ->
  Sorted (fun a b => status_line ld a <> status_line ld b) msgs /\
  HdRel (fun a b => status_line ld a <> status_line ld b) prev msgs.
Proof.
  revert prev. induction msgs as [|m rest IH]; simpl; intros prev H.
  - split; constructor.
  - destruct H as [Hne Hrest]. destruct (IH _ Hrest) as [Hs Hh].
    split; constructor; auto.
    intros E. apply status_line_inj in E. congruence.
Qed.

Section Rewriting.
Context {J F : Type} `{JobJ : Job J} `{OutF : Output F}.

Lemma loop_body_sleep_raises set q ld st (w : World J F) e :
  sleep_outcome (interval st) = Raised e ->
  loop_body set q ld st w =
    {| outcome := Raised e; final := w; events := [EvSleep (interval st)] |}.
Proof.
  intros Hs. unfold loop_body, bind. simpl. rewrite Hs. reflexivity.
Qed.

Lemma loop_body_fetch_fails set q ld st (w : World J F) :
  (0 <= interval st <= sleep_max)%Z ->
  (forall a, outcome (poll (interval st) set w) <> Ok a) ->
  writes (events (loop_body set q ld st w)) = [] /\
  forall st', outcome (loop_body set q ld st w) <> Ok st'.
Proof.
  intros Hi Hno. split.
  - destruct (writes (events (loop_body set q ld st w))) as [|t ts] eqn:Hw;
      [reflexivity|].
    destruct (loop_body_shows set q ld st w t) as (s' & raw & i' & Hp & _).
    { rewrite Hw. now left. }
    elim (Hno _ Hp).
  - intros st' Ho.
    destruct (loop_body_ok_inv _ _ _ _ _ _ Ho) as (raw & Hp & _).
    elim (Hno _ Hp).
Qed.

(** A talkative iteration writes a line only if its message differs from
    the line written last, which it then replaces. *)
Lemma loop_body_changing set ld st (w : World J F) :
  let r := loop_body set false ld st w in
  (writes (events r) = [] /\
   forall st', outcome r = Ok st' -> prev_msg st' = prev_msg st) \/
  (exists m,
     writes (events r) = [status_line ld m] /\ m <> prev_msg st /\
     forall st', outcome r = Ok st' -> prev_msg st' = m).
Proof.
  cbv zeta.
  destruct (sleep_outcome_cases (interval st)) as [[Hpos _]|[_ [x Hs]]].
  2:{ left. rewrite (loop_body_sleep_raises _ _ _ _ _ _ Hs). simpl.
      split; [reflexivity|discriminate]. }
  destruct (poll (interval st) set w) as [o wf evs] eqn:Hp.
  destruct o as [[[s' raw] i']|e|].
  - pose proof (silent_poll (interval st) set w) as Hsil.
    rewrite Hp in Hsil. unfold silent in Hsil. simpl in Hsil.
    rewrite (loop_body_run set ld st w wf s' raw i' evs Hpos Hp). cbv zeta.
    destruct (String.eqb_spec
                (raw ++ spaces (msg_len st - String.length raw))%string
                (prev_msg st)) as [Heq|Hne].
    + left. simpl. rewrite Hsil. split; [reflexivity|].
      intros st' H. injection H as <-. reflexivity.
    + right. eexists. split; [|split; [exact Hne|]].
      * destruct (write _ _) as [r o']. simpl.
        rewrite writes_app, Hsil, append_empty_r. reflexivity.
      * destruct (write _ _) as [[[]|e] o']; simpl; intros st' H;
          [injection H as <-; reflexivity|discriminate].
  - left. destruct (loop_body_fetch_fails set false ld st w Hpos) as [Hw Hno].
    { rewrite Hp. simpl. discriminate. }
    split; [exact Hw|]. intros st' H. elim (Hno _ H).
  - left. destruct (loop_body_fetch_fails set false ld st w Hpos) as [Hw Hno].
    { rewrite Hp. simpl. discriminate. }
    split; [exact Hw|]. intros st' H. elim (Hno _ H).
Qed.

Lemma while_loop_changing fuel set ld st (w : World J F) :
  exists msgs,
    writes (events (while_loop fuel set false ld st w))
      = map (status_line ld) msgs /\
    changing (prev_msg st) msgs.
Proof.
  revert st w. induction fuel as [|fuel IH]; intros st w; simpl;
    destruct (negb (in_terminal (name (cur_status st))));
    try (exists []; split; [reflexivity|exact I]).
  rewrite writes_bind.
  destruct (loop_body_changing set ld st w) as [(Hw & Hp)|(m & Hw & Hne & Hp)];
    cbv zeta in *; rewrite Hw;
    destruct (outcome (loop_body set false ld st w)) as [st1|e|] eqn:Ho.
  - destruct (IH st1 (final (loop_body set false ld st w))) as (msgs & Hm & Hc).
    exists msgs. rewrite (Hp _ eq_refl) in Hc. auto.
  - exists []. split; [reflexivity|exact I].
  - exists []. split; [reflexivity|exact I].
  - destruct (IH st1 (final (loop_body set false ld st w))) as (msgs & Hm & Hc).
    exists (m :: msgs). rewrite (Hp _ eq_refl) in Hc. simpl. rewrite Hm. auto.
  - exists [m]. simpl. auto.
  - exists [m]. simpl. auto.
Qed.

(** X10: the monitor does not write the same line twice in a row: of any
    two status lines written one after the other the second differs
    from the first, so a job that stays in one status is shown once. *)
Theorem no_line_is_written_twice_in_a_row :
  forall (fuel : nat) (interval : option Z) (quiet : bool)
         (line_discipline : string) (w : World J F),
    exists msgs tail,
      writes (events (job_monitor fuel interval quiet line_discipline w))
        = map (status_line line_discipline) msgs ++ tail /\
      (tail = [] \/ tail = [newline]) /\
      Sorted (fun a b =>
                status_line line_discipline a <> status_line line_discipline b)
        msgs.
Proof.
  intros fuel interval q ld w.
  destruct q.
  { exists [], []. split; [|split; [auto|constructor]].
    destruct interval; apply silent_text_checker. }
  assert (H : exists i set,
            job_monitor fuel interval false ld w
            = _text_checker fuel i set false ld w)
    by (destruct interval; simpl; eauto).
  destruct H as (i & set & ->).
  pose proof (text_checker_cases fuel i set false ld w) as H.
  cbv zeta in H. change (negb false) with true in H. cbv iota in H.
  assert (Hw0 : writes (events (job_status w)) = [])
    by apply silent_job_status.
  destruct (outcome (job_status w)) as [s0|e|];
    try (destruct H as [-> _]; exists [], []; rewrite Hw0;
         split; [reflexivity|split; [auto|constructor]]).
  destruct (outcome (print (status_line ld (value s0)) ""
                       (final (job_status w)))) as [[]|e|];
    try (destruct H as [-> _]; exists [value s0], [];
         rewrite writes_app, Hw0, writes_print, append_empty_r;
         split; [reflexivity|split; [auto|repeat constructor]]).
  match type of H with context [while_loop fuel set false ld ?st ?w2] =>
    destruct (while_loop_changing fuel set ld st w2) as (msgs & Hm & Hc);
    destruct (outcome (while_loop fuel set false ld st w2)) as [st'|e|]
  end; simpl in Hc; destruct (changing_sorted ld _ _ Hc) as [Hs Hh].
  - destruct H as [-> _]. exists (value s0 :: msgs), [newline].
    rewrite !writes_app, Hw0, !writes_print, Hm, append_empty_r.
    split; [reflexivity|]. split; [auto|]. constructor; auto.
  - destruct H as [-> _]. exists (value s0 :: msgs), [].
    rewrite !writes_app, Hw0, !writes_print, Hm, append_empty_r, app_nil_r.
    split; [reflexivity|]. split; [auto|]. constructor; auto.
  - destruct H as [-> _]. exists (value s0 :: msgs), [].
    rewrite !writes_app, Hw0, !writes_print, Hm, append_empty_r, app_nil_r.
    split; [reflexivity|]. split; [auto|]. constructor; auto.
Qed.
End Rewriting.

(** ** A job that never ends *)

Section Persistence.
Context {J F : Type} `{JobJ : Job J} `{OutF : Output F}.

Variable Inv : J -> Prop.

(** From every state in [Inv] the job returns a status that is not
    terminal and for which the monitor does not ask for a queue
    position, and stays in [Inv]. *)
Hypothesis Hstays :
  forall j, Inv j ->
    exists s j',
      status j = (Returns s, j') /\
      in_terminal (name s) = false /\
      (name s =? "QUEUED")%string && has_queue_position j' = false /\
      Inv j'.

Hypothesis Hacc : accepts_writes F.



End Persistence.

(** ** The first line, and jobs without a queue position *)

Section Plain.
Context {J F : Type} `{JobJ : Job J} `{OutF : Output F}.

(** X12: a talkative session starts by fetching the status and writing
    its display string as it is: the first line never carries a queue
    position, also when the job is QUEUED and has one, and nothing is
    asked of the job in between. *)
Theorem first_line_shows_plain_status :
  forall (fuel : nat) (interval : option Z) (line_discipline : string)
         (w : World J F) (s0 : Status) (j1 : J),
    status (job w) = (Returns s0, j1) ->
    exists res rest,
      events (job_monitor fuel interval false line_discipline w)
      = EvStatus (Returns s0)
          :: EvWrite (status_line line_discipline (value s0) ++ "")%string res
          :: rest.
Proof.
  intros fuel interval ld w s0 j1 Hs.
  assert (H : exists i set,
            job_monitor fuel interval false ld w
            = _text_checker fuel i set false ld w)
    by (destruct interval; simpl; eauto).
  destruct H as (i & set & ->).
  pose proof (text_checker_cases fuel i set false ld w) as H.
  cbv zeta in H. change (negb false) with true in H. cbv iota in H.
  assert (Hst : job_status w =
            {| outcome := Ok s0; final := at_job j1 w;
               events := [EvStatus (Returns s0)] |}).
  { unfold job_status. rewrite Hs. reflexivity. }
  rewrite Hst in H. simpl outcome in H. simpl final in H. simpl events in H.
  cbv iota in H.
  destruct (print_run (status_line ld (value s0)) "" (at_job j1 w))
    as (r1 & o1 & _ & Ep).
  rewrite Ep in H. simpl in H.
  destruct r1 as [[]|e]; simpl in H.
  - match type of H with context [while_loop fuel set false ld ?st ?w2] =>
      destruct (outcome (while_loop fuel set false ld st w2))
    end; destruct H as [-> _]; eauto.
  - destruct H as [-> _]. eauto.
Qed.

Lemma poll_without_attribute i set (w : World J F) s msg i' :
  (forall j : J, has_queue_position j = false) ->
  outcome (poll i set w) = Ok (s, msg, i') ->
  i' = if set then i else 2%Z.
Proof.
  intros Hhas.
  unfold poll, bind, job_status, job_hasattr_queue_position.
  destruct (status (job w)) as [[s0|e] j1]; simpl; [|discriminate].
  destruct (name s0 =? "QUEUED")%string; simpl.
  - rewrite Hhas. simpl. destruct set; simpl;
      intros H; injection H as _ _ <-; reflexivity.
  - destruct set; simpl; intros H; injection H as _ _ <-; reflexivity.
Qed.

Lemma while_loop_sleeps_without_attribute fuel set q ld st (w : World J F) :
  (forall j : J, has_queue_position j = false) ->
  sleeps (events (while_loop fuel set q ld st w)) = [] \/
  exists k,
    sleeps (events (while_loop fuel set q ld st w))
    = interval st :: repeat (if set then interval st else 2%Z) k.
Proof.
  intros Hhas. revert st w.
  induction fuel as [|fuel IH]; intros st w; simpl;
    destruct (negb (in_terminal (name (cur_status st)))); auto.
  right. rewrite sleeps_bind, sleeps_loop_body.
  destruct (outcome (loop_body set q ld st w)) as [st'|e|] eqn:Ho;
    try (exists 0; reflexivity).
  destruct (loop_body_ok_inv _ _ _ _ _ _ Ho) as (raw & Hp & _).
  pose proof (poll_without_attribute _ _ _ _ _ _ Hhas Hp) as Hi.
  destruct (IH st' (final (loop_body set q ld st w))) as [H0|(k & Hk)].
  - exists 0. rewrite H0. reflexivity.
  - exists (S k). rewrite Hk, Hi. simpl. destruct set; reflexivity.
Qed.

(** X13: on a job that has no [queue_position] attribute the sleeps
    follow the interval alone: with no interval supplied the first lasts
    5 seconds and all later ones 2 seconds; with an interval supplied
    every sleep lasts that long. *)
Theorem sleeps_without_queue_position :
  forall (fuel : nat) (interval : option Z) (quiet : bool)
         (line_discipline : string) (w : World J F),
    (forall j : J, has_queue_position j = false) ->
    let secs :=
      sleeps (events (job_monitor fuel interval quiet line_discipline w)) in
    secs = [] \/
    exists k,
      secs = match interval with
             | None => 5%Z :: repeat 2%Z k
             | Some i => i :: repeat i k
             end.
Proof.
  intros fuel interval q ld w Hhas secs. subst secs.
  destruct interval as [i|]; simpl.
  - destruct (sleeps_text_checker fuel i true q ld w) as [H|(s0 & w1 & H)];
      [now left|rewrite H].
    match goal with |- context [while_loop fuel true q ld ?st w1] =>
      exact (while_loop_sleeps_without_attribute fuel true q ld st w1 Hhas)
    end.
  - destruct (sleeps_text_checker fuel 5 false q ld w) as [H|(s0 & w1 & H)];
      [now left|rewrite H].
    match goal with |- context [while_loop fuel false q ld ?st w1] =>
      exact (while_loop_sleeps_without_attribute fuel false q ld st w1 Hhas)
    end.
Qed.
End Plain.

(** ** Concrete runs for the further properties *)

(** X1, witness: a job without the attribute that stays QUEUED. *)
Lemma no_queue_position_call_without_attribute_witness :
  queue_position_calls
    (events (job_monitor 4 None false carriage_return
               (start {| constant_status := JobStatus.QUEUED |}
                      {| getvalue := "" |}))) = 0.
Proof.
  apply (no_queue_position_call_without_attribute (J := Constant)).
  intros j. reflexivity.
Defined.

(** X5, witness: an interval of 7 seconds and a job queued at positions
    4 and 1. *)
Lemma supplied_interval_kept_without_null_position_witness :
  Forall (eq 7%Z)
    (sleeps (events
       (job_monitor 5 (Some 7%Z) false carriage_return
          (start (scripted true
                    [(JobStatus.QUEUED, Some 4%Z); (JobStatus.QUEUED, Some 4%Z);
                     (JobStatus.QUEUED, Some 1%Z); (JobStatus.DONE, None)])
                 {| getvalue := "" |})))).
Proof.
  apply supplied_interval_kept_without_null_position.
  vm_compute. intros H.
  repeat (destruct H as [H|H]; [discriminate H|]). exact H.
Defined.

(** X6, witness: a job that is already done. *)
Lemma finished_job_is_asked_once_witness :
  let r := job_monitor 0 None false carriage_return
             (start (scripted true [(JobStatus.DONE, None)])
                    {| getvalue := "" |}) in
  polling (events r) = [EvStatus (Returns JobStatus.DONE)] /\
  writes (events r)
    = [status_line carriage_return "job has successfully run"; newline].
Proof.
  intros r.
  set (j1 := {| with_queue_position := true; pending := [];
                position := (None : option Z) |}).
  assert (Hs : status (job (start (scripted true [(JobStatus.DONE, None)])
                             {| getvalue := "" |}))
               = (Returns JobStatus.DONE, j1)) by reflexivity.
  destruct (finished_job_is_asked_once 0 None false carriage_return _
              JobStatus.DONE j1 Hs eq_refl) as (Hp & _ & Hw).
  split; [exact Hp|]. exact (proj2 (Hw StringIO_accepts_writes)).
Defined.

(** X7, witness: a job that is at position 3 twice and then has no
    position. *)
Lemma vanishing_position_raises_TypeError_witness :
  let w := start {| status_answers := [Returns JobStatus.QUEUED];
                    position_answers := [Returns (Some 3%Z); Returns (Some 3%Z);
                                         Returns None] |}
                 {| getvalue := "" |} in
  let st := {| cur_status := JobStatus.QUEUED; interval := 5;
               msg_len := 13; prev_msg := "job is queued" |} in
  outcome (loop_body false false carriage_return st w) =
    Raised (TypeError
      "'>' not supported between instances of 'int' and 'NoneType'").
Proof.
  intros w st.
  set (j1 := {| status_answers := [];
                position_answers := [Returns (Some 3%Z); Returns (Some 3%Z);
                                     Returns None] |}).
  set (j2 := {| status_answers := [];
                position_answers := [Returns (Some 3%Z); Returns None] |}).
  set (j3 := {| status_answers := [];
                position_answers := [Returns (@None Z)] |}).
  set (j4 := {| status_answers := []; position_answers := [] |}).
  assert (Hi : (0 <= interval st <= sleep_max)%Z) by (unfold sleep_max; simpl; lia).
  assert (Hs : status (job w) = (Returns JobStatus.QUEUED, j1)) by reflexivity.
  assert (Hq1 : queue_position j1 = (Returns (Some 3%Z), j2)) by reflexivity.
  assert (Hq2 : queue_position j2 = (Returns (Some 3%Z), j3)) by reflexivity.
  assert (Hq3 : queue_position j3 = (Returns None, j4)) by reflexivity.
  exact (proj1 (vanishing_position_raises_TypeError false carriage_return st w
                  JobStatus.QUEUED (Some 3%Z) 3%Z j1 j2 j3 j4
                  Hi Hs eq_refl eq_refl Hq1 Hq2 Hq3)).
Defined.


(** X9, witness: the scenario job. *)
Lemma returns_at_first_terminal_status_witness :
  let r := job_monitor 5 None false carriage_return
             (start (scenario "job is queued" "job is actively running"
                       "job has successfully run") {| getvalue := "" |}) in
  exists pre last,
    fetched (events r) = pre ++ [last] /\
    in_terminal (name last) = true /\
    Forall (fun s => in_terminal (name s) = false) pre.
Proof.
  intros r.
  assert (Ho : outcome r = Ok tt) by reflexivity.
  exact (returns_at_first_terminal_status 5 None false carriage_return _ Ho).
Defined.


(** X12, witness: a job queued at position 3. *)
Lemma first_line_shows_plain_status_witness :
  exists res rest,
    events (job_monitor 5 None false carriage_return
              (start (scripted true
                        [(JobStatus.QUEUED, Some 3%Z); (JobStatus.DONE, None)])
                     {| getvalue := "" |}))
    = EvStatus (Returns JobStatus.QUEUED)
        :: EvWrite (status_line carriage_return "job is queued" ++ "")%string res
        :: rest.
Proof.
  set (j1 := {| with_queue_position := true;
                pending := [(JobStatus.DONE, @None Z)];
                position := Some 3%Z |}).
  assert (Hs : status (job (start (scripted true
                                     [(JobStatus.QUEUED, Some 3%Z);
                                      (JobStatus.DONE, None)])
                                  {| getvalue := "" |}))
               = (Returns JobStatus.QUEUED, j1)) by reflexivity.
  exact (first_line_shows_plain_status 5 None carriage_return _
           JobStatus.QUEUED j1 Hs).
Defined.

(** X13, witness: a job without the attribute that stays QUEUED. *)
Lemma sleeps_without_queue_position_witness :
  let secs :=
    sleeps (events (job_monitor 4 None false carriage_return
                      (start {| constant_status := JobStatus.QUEUED |}
                             {| getvalue := "" |}))) in
  secs = [] \/ exists k, secs = 5%Z :: repeat 2%Z k.
Proof.
  apply (sleeps_without_queue_position (J := Constant) 4 None).
  intros j. reflexivity.
Defined.
